(** * IceCereum/Core: the ledger, the miner and the transfer protocol

    A shallow embedding of
      - [Blockchain/Block.py]   (class [Block]),
      - [Blockchain/Chain.py]   (class [Cryptocurrency]),
      - [MiningNode/miner.py]   ([reward_tx], [mine]),
      - [API/miner-API.py]      ([mine_hash]),
      - [API/chain-API.py]      ([create_genesis], [load_chain],
                                 [add_transaction], [create_block],
                                 [mine_block]),
    followed by the properties of the specification, C1 to C10, checked
    against it, and by further properties of the code, X1 to X20.

    Modelling choices, all of them visible in the definitions below:
      - Python [float] is IEEE binary64, i.e. Rocq's primitive [float];
        [+], [-], [*], [/] and [<] are the kernel's operations.
      - Python [str] is [string]; [str.lower] acts on the ASCII letters
        (addresses, account names and digests are ASCII).
      - A Python [dict] keeps insertion order and is iterated in that
        order, so it is an association list with Python's assignment
        ([d[k] = v] overwrites in place or appends).  The loops
        [for k in d: ... d[k] ...] run over the values in that order.
      - No dict is changed after a block holds it ([create_block] and
        [mine_block] rebind [TXPOOL]), so blocks hold values.
      - Library calls whose result the code only passes around
        ([hashlib.sha3_256], [str()] of a dict or a float, [math.exp],
        [Web3.isAddress], [Account.recover_message]) are the fields of
        the class [Extern]; the general theorems hold for every
        instance, and one small instance runs the examples.
      - The clock ([time_utc()]), [uuid4()], [SystemRandom] and the
        order in which a directory lists its files are explicit inputs.
      - Unbounded [while] loops take fuel and answer [NoResult] when it
        is used up; exceptions are results: [Raises], or [None] where the
        callers do not tell the exceptions apart.  A call that raises
        after a side effect has a definition for the state it leaves
        ([create_block_raised]). *)

From Stdlib Require Import String Ascii List ZArith NArith Lia Bool Arith.
From Stdlib Require Import DecimalString HexadecimalString DecimalNat HexadecimalN.
From Stdlib Require Import PrimFloat FloatOps SpecFloat Uint63.
From Stdlib Require Import Permutation.
Import ListNotations.

Set Implicit Arguments.
Set Warnings "-inexact-float".
Local Open Scope string_scope.
Local Open Scope list_scope.

(* ===================================================================== *)
(** ** Results of code that may raise or loop *)
(* ===================================================================== *)

(** The exceptions the modelled code can raise. *)
Inductive exn :=
| ValueError
| OverflowError
| KeyError.

(** What running a piece of code gives: a value, an exception, or no
    answer within the fuel given to its [while] loop. *)
Inductive outcome (A : Type) :=
| Returns (a : A)
| Raises (e : exn)
| NoResult.
Arguments Returns {A} a.
Arguments Raises {A} e.
Arguments NoResult {A}.

Definition bind {A B : Type} (m : outcome A) (k : A -> outcome B) : outcome B :=
  match m with
  | Returns a => k a
  | Raises e => Raises e
  | NoResult => NoResult
  end.

Declare Scope outcome_scope.
Delimit Scope outcome_scope with outcome.
Notation "x <- m ;; k" := (bind m (fun x => k))
  (at level 61, m at next level, right associativity) : outcome_scope.

(* ===================================================================== *)
(** ** Python primitives *)
(* ===================================================================== *)

Module Py.

(** [c.lower()] for one ASCII character: 'A'..'Z' go to 'a'..'z'. *)
Definition is_upper (c : ascii) : bool :=
  let n := nat_of_ascii c in ((65 <=? n) && (n <=? 90))%nat.

Definition lower_ascii (c : ascii) : ascii :=
  if is_upper c then ascii_of_nat (nat_of_ascii c + 32) else c.

(** [s.lower()]. *)
Fixpoint lower (s : string) : string :=
  match s with
  | EmptyString => EmptyString
  | String c r => String (lower_ascii c) (lower r)
  end.

(** Does [s] contain an upper-case letter? *)
Fixpoint has_upper (s : string) : bool :=
  match s with
  | EmptyString => false
  | String c r => is_upper c || has_upper r
  end.

(** [s.lstrip(c)] with a one-character argument. *)
Fixpoint lstrip (c : ascii) (s : string) : string :=
  match s with
  | EmptyString => EmptyString
  | String a r => if Ascii.eqb a c then lstrip c r else s
  end.

(** [s.rstrip(c)] with a one-character argument. *)
Fixpoint rstrip (c : ascii) (s : string) : string :=
  match s with
  | EmptyString => EmptyString
  | String a r =>
      match rstrip c r with
      | EmptyString =>
          if Ascii.eqb a c then EmptyString else String a EmptyString
      | r' => String a r'
      end
  end.

(** [str(n)] for a non-negative [int]. *)
Definition str_nat (n : nat) : string :=
  DecimalString.NilZero.string_of_uint (Nat.to_uint n).

(** [str(z)] for an [int]. *)
Definition str_int (z : Z) : string :=
  DecimalString.NilZero.string_of_int (Z.to_int z).

(** [hex(n)] for a non-negative [int]: "0x" and the lower-case digits. *)
Definition hex (n : N) : string :=
  "0x" ++ HexadecimalString.NilZero.string_of_uint (N.to_hex_uint n).

(** The slice [s[2:]]. *)
Definition slice_from_2 (s : string) : string :=
  substring 2 (String.length s - 2) s.

(** [float(n)] for a non-negative [int] below 2^63 (pool sizes are). *)
Definition float_of_int (z : Z) : float :=
  PrimFloat.of_uint63 (Uint63.of_Z z).

(** [int(f)]: truncation toward zero; [ValueError] on NaN and
    [OverflowError] on an infinity. *)
Definition int_of_float (f : float) : outcome Z :=
  match Prim2SF f with
  | S754_zero _ => Returns 0%Z
  | S754_finite s m e =>
      let mag := if (0 <=? e)%Z then Z.shiftl (Z.pos m) e
                 else Z.shiftr (Z.pos m) (- e) in
      Returns (if s then (- mag)%Z else mag)
  | S754_infinity _ => Raises OverflowError
  | S754_nan => Raises ValueError
  end.

(** [a or b] on strings: the empty string is falsy. *)
Definition str_or (a b : string) : string :=
  match a with EmptyString => b | _ => a end.

(** [a or b] where [a] may be [None]. *)
Definition opt_or (a : option string) (b : string) : string :=
  match a with Some s => str_or s b | None => b end.

(** *** Dictionaries with string keys *)
Section Dict.
Variable V : Type.

Definition dict := list (string * V).

(** [d[k]]; [None] is [KeyError]. *)
Fixpoint dict_get (k : string) (d : dict) : option V :=
  match d with
  | [] => None
  | (k', v) :: r => if String.eqb k' k then Some v else dict_get k r
  end.

(** [d[k] = v]: an existing key keeps its place, a new one goes last. *)
Fixpoint dict_set (k : string) (v : V) (d : dict) : dict :=
  match d with
  | [] => [(k, v)]
  | (k', v') :: r =>
      if String.eqb k' k then (k, v) :: r else (k', v') :: dict_set k v r
  end.

(** The values in iteration order: [for k in d: ... d[k] ...]. *)
Definition dict_values (d : dict) : list V := map snd d.

Definition dict_keys (d : dict) : list string := map fst d.
End Dict.

(** The keys ["0"], ["1"], ..., [str(n-1)], in this order. *)
Definition key_range (n : nat) : list string := map str_nat (seq 0 n).

End Py.
Import Py.

(* ===================================================================== *)
(** ** Data *)
(* ===================================================================== *)

(** One transaction dict, as [Cryptocurrency.add_transaction] and
    [reward_tx] build it.  ["txhash"] is added after the other keys. *)
Record Transaction := mkTransaction {
  sendr_addr : string;
  recvr_addr : string;
  value : float;
  mining_fee : float;
  final_value : float;
  skscript : string;
  timestamp : string;
  txhash : option string
}.

(** [transaction["txhash"] = h] *)
Definition set_txhash (t : Transaction) (h : string) : Transaction :=
  {| sendr_addr := sendr_addr t;
     recvr_addr := recvr_addr t;
     value := value t;
     mining_fee := mining_fee t;
     final_value := final_value t;
     skscript := skscript t;
     timestamp := timestamp t;
     txhash := Some h |}.

(** [previous_block_hash] is the [int] 0 for the first block and a
    digest (a [str]) afterwards. *)
Inductive PrevHash :=
| PrevInt (z : Z)
| PrevStr (h : string).

(** What [Account.recover_message] does: it returns the signer's
    address, raises [eth_utils.exceptions.ValidationError], or raises an
    exception of another class ([IndexError], [binascii.Error],
    [BadSignature], ...), kept by the name of its class. *)
Inductive Recovered :=
| Signer (addr : string)
| ValidationError
| OtherException (class : string).

(** The library functions the code calls. *)
Class Extern := {
(** [sha3_256(s.encode("utf-8")).hexdigest()] *)
  sha3_256 : string -> string;
(** [str(d)] of a transaction dict *)
  str_transaction : Transaction -> string;
(** [str(d)] of a dict of transactions *)
  str_transactions : dict Transaction -> string;
(** [str(x)] of a float *)
  str_float : float -> string;
(** [math.exp]; [None] is [OverflowError] (math range error) *)
  exp : float -> option float;
(** [Web3().isAddress] *)
  isAddress : string -> bool;
(** [Account.recover_message(encode_defunct(text = m), signature = s)] *)
  recover_message : string -> string -> Recovered
}.


(* ===================================================================== *)
(** ** Blockchain/Block.py *)
(* ===================================================================== *)

(** The attributes [Block.__init__] sets. *)
Record Block := mkBlock {
  block_index : nat;
  previous_block_hash : PrevHash;
  mined_block_hash : string;
  nonce : string;
  difficulty : Z;
  transactions : dict Transaction;
  block_timestamp : string
}.

(** [Block(...)]: [self.timestamp = timestamp or time_utc()]. *)
Definition Block_init (block_index : nat) (mined_block_hash : string)
    (previous_block_hash : PrevHash) (nonce : string) (difficulty : Z)
    (transactions : dict Transaction) (timestamp : option string)
    (time_utc : string) : Block :=
  mkBlock block_index previous_block_hash mined_block_hash nonce difficulty
          transactions (opt_or timestamp time_utc).

(** ["{}".format(self.previous_block_hash)] *)
Definition str_prev (p : PrevHash) : string :=
  match p with
  | PrevInt z => str_int z
  | PrevStr h => h
  end.

Section BlockHash.
Context {E : Extern}.

(** The string [Block.block_hash] digests. *)
Definition block_str (b : Block) : string :=
  ("|" ++ str_nat (block_index b) ++
   "|" ++ mined_block_hash b ++
   "|" ++ str_transactions (transactions b) ++
   "|" ++ str_prev (previous_block_hash b) ++
   "|" ++ str_int (difficulty b) ++
   "|" ++ block_timestamp b ++ "|")%string.

(** The property [Block.block_hash]: recomputed at every access. *)
Definition block_hash (b : Block) : string := sha3_256 (block_str b).

End BlockHash.

(* ===================================================================== *)
(** ** Blockchain/Chain.py *)
(* ===================================================================== *)

(** One block file, as [create_block] dumps it and [load_chain] reads it
    back. *)
Record BlockDict := mkBlockDict {
  bd_block_index : nat;
  bd_previous_block_hash : PrevHash;
  bd_difficulty : Z;
  bd_nonce : string;
  bd_mined_block_hash : string;
  bd_percent_tx_rewarded : float;
  bd_mining_fee : float;
  bd_reward_for_tx : float;
  bd_transactions : dict Transaction;
  bd_timestamp : string
}.

(** The state of a [Cryptocurrency] object.  [blocks_path] is the
    directory of block files: file name to content. *)
Record Cryptocurrency := mkCryptocurrency {
  index : nat;
  chain : list Block;
  transaction_number : nat;
  TXPOOL : dict Transaction;
  _difficulty : Z;
  _percentage_of_transactions_rewarded : float;
  _mining_fees : float;
  _reward_for_transaction : float;
  blocks_path : dict BlockDict
}.

(** The request body [validate_add_transaction] reads. *)
Record IncomingTx := mkIncomingTx {
  in_sendr_addr : string;
  in_recvr_addr : string;
  in_value : float;
  in_skscript : string
}.

(** The return codes of [validate_add_transaction]. *)
Definition TX_OK : Z := 1%Z.
Definition TX_INSUFFICIENT_FUNDS : Z := (-1)%Z.
Definition TX_NO_SENDER : Z := (-2)%Z.

(** What [get_latest_block_metaparams] returns, which is also the
    [mine_params] of [mine]. *)
Record MetaParams := mkMetaParams {
  mp_index : nat;
  mp_TXPOOL : dict Transaction;
  mp_prev_hash : string;
  mp_difficulty : Z;
  mp_mining_fees : float;
  mp_num_tx_TXPOOL : nat;
  mp_reward_for_tx : float;
  mp_percent_tx_rewarded : float
}.

(** One record of [get_transactions_of_addr]: a copy of the transaction
    with the keys ["type"] and ["in_txpool"]. *)
Record TxView := mkTxView {
  tv_tx : Transaction;
  tv_type : string;
  tv_in_txpool : bool
}.

Module Chain.
Section WithExtern.
Context {E : Extern}.

(** [__init__] before the genesis branch; [files] is what the blocks
    directory already holds. *)
Definition init (files : dict BlockDict) : Cryptocurrency :=
  {| index := 0;
     chain := [];
     transaction_number := 0;
     TXPOOL := [];
     _difficulty := 2;
     _percentage_of_transactions_rewarded := 0.1;
     _mining_fees := 1;
     _reward_for_transaction := 1.5;
     blocks_path := files |}.

(** The fee of [set_metaparams] as a function of [R]; [None] is the
    [OverflowError] of [exp]. *)
Definition Mu (R : nat) : option float :=
  if (R <=? 10)%nat then Some 1%float
  else exp (float_of_int (Z.of_nat R - 10) / float_of_int 10).

(** [set_metaparams]: [R = self.transaction_number].  [None] is the
    [OverflowError] of [exp], raised before any attribute is assigned. *)
Definition set_metaparams (self : Cryptocurrency)
  : option (Cryptocurrency * (float * float)) :=
  let R := transaction_number self in
  match Mu R with
  | None => None
  | Some mu =>
      let tau := (1.5 * mu)%float in
      Some ({| index := index self;
               chain := chain self;
               transaction_number := transaction_number self;
               TXPOOL := TXPOOL self;
               _difficulty := _difficulty self;
               _percentage_of_transactions_rewarded :=
                 _percentage_of_transactions_rewarded self;
               _mining_fees := mu;
               _reward_for_transaction := tau;
               blocks_path := blocks_path self |},
            (mu, tau))
  end.

(** [self.chain[-1]]; [None] is [IndexError]. *)
Definition last_block (self : Cryptocurrency) : option Block :=
  match rev (chain self) with
  | [] => None
  | b :: _ => Some b
  end.

(** [get_latest_block_metaparams]. *)
Definition get_latest_block_metaparams (self : Cryptocurrency)
  : option MetaParams :=
  match last_block self with
  | None => None
  | Some b =>
      Some {| mp_index := index self;
              mp_TXPOOL := TXPOOL self;
              mp_prev_hash := block_hash b;
              mp_difficulty := _difficulty self;
              mp_mining_fees := _mining_fees self;
              mp_num_tx_TXPOOL := transaction_number self;
              mp_reward_for_tx := _reward_for_transaction self;
              mp_percent_tx_rewarded :=
                _percentage_of_transactions_rewarded self |}
  end.

(** [self.blocks_path] holds one more file. *)
Definition write_file (self : Cryptocurrency) (file_name : string)
    (block_dict : BlockDict) : Cryptocurrency :=
  {| index := index self;
     chain := chain self;
     transaction_number := transaction_number self;
     TXPOOL := TXPOOL self;
     _difficulty := _difficulty self;
     _percentage_of_transactions_rewarded :=
       _percentage_of_transactions_rewarded self;
     _mining_fees := _mining_fees self;
     _reward_for_transaction := _reward_for_transaction self;
     blocks_path := dict_set file_name block_dict (blocks_path self) |}.

(** [create_block] up to and including the [dump] of the block file:
    the block and the state with the file written.  [None] is the
    [IndexError] of [self.chain[-1]] on an empty chain whose index is
    not 0. *)
Definition write_block (self : Cryptocurrency)
    (mined_block_hash nonce : string) (time_utc : string)
  : option (Cryptocurrency * Block) :=
  let previous :=
    if negb (index self =? 0)%nat then
      match last_block self with
      | Some b => Some (PrevStr (block_hash b))
      | None => None
      end
    else Some (PrevInt 0) in
  match previous with
  | None => None
  | Some previous_hash =>
      let block :=
        Block_init (index self) mined_block_hash previous_hash nonce
                   (_difficulty self) (TXPOOL self) None time_utc in
      let file_name := (str_nat (index self) ++ ".json")%string in
      let block_dict :=
        {| bd_block_index := index self;
           bd_previous_block_hash := previous_hash;
           bd_difficulty := _difficulty self;
           bd_nonce := nonce;
           bd_mined_block_hash := mined_block_hash;
           bd_percent_tx_rewarded :=
             _percentage_of_transactions_rewarded self;
           bd_mining_fee := _mining_fees self;
           bd_reward_for_tx := _reward_for_transaction self;
           bd_transactions := TXPOOL self;
           bd_timestamp := block_timestamp block |} in
      Some (write_file self file_name block_dict, block)
  end.

(** [create_block]: the new state and the block.  [None] is an
    exception: the [IndexError] of [self.chain[-1]], or the
    [OverflowError] of [set_metaparams], which is raised after the
    block file is written and before the index, the pool and the chain
    are touched. *)
Definition create_block (self : Cryptocurrency)
    (mined_block_hash nonce : string) (time_utc : string)
  : option (Cryptocurrency * Block) :=
  match write_block self mined_block_hash nonce time_utc with
  | None => None
  | Some (self0, block) =>
      match set_metaparams self0 with
      | None => None
      | Some (self1, _) =>
          Some ({| index := index self1 + 1;
                   chain := chain self1 ++ [block];
                   transaction_number := 0;
                   TXPOOL := [];
                   _difficulty := _difficulty self1;
                   _percentage_of_transactions_rewarded :=
                     _percentage_of_transactions_rewarded self1;
                   _mining_fees := _mining_fees self1;
                   _reward_for_transaction := _reward_for_transaction self1;
                   blocks_path := blocks_path self1 |},
                block)
      end
  end.

(** The state a call of [create_block] that raises leaves behind: the
    block file is written when the exception is that of
    [set_metaparams]. *)
Definition create_block_raised (self : Cryptocurrency)
    (mined_block_hash nonce : string) (time_utc : string) : Cryptocurrency :=
  match write_block self mined_block_hash nonce time_utc with
  | None => self
  | Some (self0, _) => self0
  end.

(** The body of both scanning loops of [get_balance_of_addr]: one
    transaction against the running (flag, balance). *)
Definition balance_step (address : string) (acc : bool * float)
    (tx : Transaction) : bool * float :=
  let '(flag_wallet_exists, wallet_balance) := acc in
  let '(flag_wallet_exists, wallet_balance) :=
    if String.eqb (sendr_addr tx) address
    then (true, (wallet_balance - value tx)%float)
    else (flag_wallet_exists, wallet_balance) in
  if String.eqb (recvr_addr tx) address
  then (true, (wallet_balance + final_value tx)%float)
  else (flag_wallet_exists, wallet_balance).

(** [get_balance_of_addr]: the blocks of the chain, each block's
    transactions in dict order, then [TXPOOL]. *)
Definition get_balance_of_addr (self : Cryptocurrency) (address : string)
  : bool * float :=
  let address := lower address in
  let acc :=
    fold_left
      (fun acc block =>
         fold_left (balance_step address) (dict_values (transactions block)) acc)
      (chain self) (false, 0%float) in
  fold_left (balance_step address) (dict_values (TXPOOL self)) acc.

(** The body of both scanning loops of [get_transactions_of_addr]:
    the running (flag, transactions, tx_index). *)
Definition history_step (address : string) (in_txpool : bool)
    (acc : bool * dict TxView * nat) (t : Transaction)
  : bool * dict TxView * nat :=
  let '(flag_address_exists, transactions, tx_index) := acc in
  let '(flag_address_exists, transactions, tx_index) :=
    if String.eqb (sendr_addr t) address
    then (true,
          dict_set (str_nat tx_index) (mkTxView t "send" in_txpool) transactions,
          tx_index + 1)
    else (flag_address_exists, transactions, tx_index) in
  if String.eqb (recvr_addr t) address
  then (true,
        dict_set (str_nat tx_index) (mkTxView t "receive" in_txpool) transactions,
        tx_index + 1)
  else (flag_address_exists, transactions, tx_index).

(** [get_transactions_of_addr]: the address is compared as given. *)
Definition get_transactions_of_addr (self : Cryptocurrency) (address : string)
  : bool * dict TxView :=
  let acc :=
    fold_left
      (fun acc block =>
         fold_left (history_step address false)
                   (dict_values (transactions block)) acc)
      (chain self) (false, [], 0) in
  let '(flag_address_exists, transactions, _) :=
    fold_left (history_step address true) (dict_values (TXPOOL self)) acc in
  (flag_address_exists, transactions).

(** The transaction dict [add_transaction] stores. *)
Definition make_transaction (sendr_addr recvr_addr : string)
    (value mining_fee : float) (timestamp : string)
    (skscript : option string) : Transaction :=
  let transaction :=
    {| sendr_addr := lower sendr_addr;
       recvr_addr := lower recvr_addr;
       value := value;
       mining_fee := mining_fee;
       final_value := (value - mining_fee)%float;
       skscript := opt_or skscript sendr_addr;
       timestamp := timestamp;
       txhash := None |} in
  set_txhash transaction (sha3_256 (str_transaction transaction)).

(** [add_transaction]: always returns [True]. *)
Definition add_transaction (self : Cryptocurrency)
    (sendr_addr recvr_addr : string) (value mining_fee : float)
    (timestamp : string) (skscript : option string) : Cryptocurrency :=
  let transaction :=
    make_transaction sendr_addr recvr_addr value mining_fee timestamp skscript in
  let transaction_index := str_nat (transaction_number self) in
  {| index := index self;
     chain := chain self;
     transaction_number := transaction_number self + 1;
     TXPOOL := dict_set transaction_index transaction (TXPOOL self);
     _difficulty := _difficulty self;
     _percentage_of_transactions_rewarded :=
       _percentage_of_transactions_rewarded self;
     _mining_fees := _mining_fees self;
     _reward_for_transaction := _reward_for_transaction self;
     blocks_path := blocks_path self |}.

(** [validate_add_transaction]: the return code and the state after. *)
Definition validate_add_transaction (self : Cryptocurrency)
    (incoming_tx : IncomingTx) (mining_fees : float) (time_utc : string)
  : Z * Cryptocurrency :=
  let sendr_addr := lower (in_sendr_addr incoming_tx) in
  let recvr_addr := lower (in_recvr_addr incoming_tx) in
  let value := in_value incoming_tx in
  let '(flag_sender_exists, sendr_wallet_balance) :=
    get_balance_of_addr self sendr_addr in
  if negb flag_sender_exists then (TX_NO_SENDER, self)
  else if (sendr_wallet_balance <? value + mining_fees)%float
  then (TX_INSUFFICIENT_FUNDS, self)
  else (TX_OK,
        add_transaction self sendr_addr recvr_addr value mining_fees time_utc
                        (Some (in_skscript incoming_tx))).

(** [__init__] with [create_genesis = True]. *)
Definition init_genesis (files : dict BlockDict) (address : string)
    (amount : float) (t_tx t_block : string)
  : option Cryptocurrency :=
  let self := init files in
  let self := add_transaction self "Genesis" address amount 0%float t_tx None in
  match create_block self "0" "0" t_block with
  | Some (self, _) => Some self
  | None => None
  end.

(** The [Block] that [load_chain] builds from one block file. *)
Definition block_of_dict (block_dict : BlockDict) (time_utc : string) : Block :=
  Block_init (bd_block_index block_dict) (bd_mined_block_hash block_dict)
             (bd_previous_block_hash block_dict) (bd_nonce block_dict)
             (bd_difficulty block_dict) (bd_transactions block_dict)
             (Some (bd_timestamp block_dict)) time_utc.

(** [load_chain]; [block_files] is the content of the files in the
    order [rglob("*.json")] yields them. *)
Definition load_chain (self : Cryptocurrency) (block_files : list BlockDict)
    (time_utc : string) : Cryptocurrency :=
  {| index := length block_files;
     chain :=
       fold_left (fun chain block_dict =>
                    chain ++ [block_of_dict block_dict time_utc])
                 block_files (chain self);
     transaction_number := transaction_number self;
     TXPOOL := TXPOOL self;
     _difficulty := _difficulty self;
     _percentage_of_transactions_rewarded :=
       _percentage_of_transactions_rewarded self;
     _mining_fees := _mining_fees self;
     _reward_for_transaction := _reward_for_transaction self;
     blocks_path := blocks_path self |}.

End WithExtern.
End Chain.

(* ===================================================================== *)
(** ** MiningNode/miner.py *)
(* ===================================================================== *)

(** The answers of [SystemRandom] during one call of [mine]:
    [random_unit] is what [random()] returns, [randint_raw i] is the
    raw material of the [i]-th [randint] call. *)
Record Random := mkRandom {
  random_unit : float;
  randint_raw : nat -> nat
}.

Module Miner.
Section WithExtern.
Context {E : Extern}.

(** [SystemRandom().randint(0, n - 1)]: [ValueError] on the empty range,
    otherwise some integer of the range.  Every integer of the range is
    the answer for some raw draw. *)
Definition randint_below (n : nat) (raw : nat) : outcome nat :=
  if (n =? 0)%nat then Raises ValueError else Returns (raw mod n).

(** [reward_tx]: the pool after the assignment [TXPOOL[str(index)]]. *)
Definition reward_tx (recvr_addr : string) (reward : float)
    (TXPOOL : dict Transaction) (sendr_addr : option string)
    (time_utc : string) : dict Transaction :=
  let transaction :=
    {| sendr_addr := opt_or sendr_addr "IceCereum-Rewards";
       recvr_addr := recvr_addr;
       value := reward;
       mining_fee := 0.0;
       final_value := reward;
       skscript := opt_or sendr_addr "IceCereum-Rewards";
       timestamp := time_utc;
       txhash := None |} in
  let index := length TXPOOL in
  let transaction :=
    set_txhash transaction (sha3_256 (str_transaction transaction)) in
  dict_set (str_nat index) transaction TXPOOL.

(** [TXPOOL[str(tx_num)]["sendr_addr"]] *)
Definition sender_of (TXPOOL : dict Transaction) (tx_num : nat)
  : outcome string :=
  match dict_get (str_nat tx_num) TXPOOL with
  | Some t => Returns (sendr_addr t)
  | None => Raises KeyError
  end.

(** [while (len(rewarded_tx) <= num_tx_rewarded)]: the [i]-th draw is
    tried next. *)
Fixpoint sample_loop (fuel : nat) (rnd : Random) (i : nat)
    (num_transactions : nat) (num_tx_rewarded : Z) (rewarded_tx : list nat)
  : outcome (list nat) :=
  if (Z.of_nat (length rewarded_tx) <=? num_tx_rewarded)%Z then
    match fuel with
    | O => NoResult
    | S fuel' =>
        match randint_below num_transactions (randint_raw rnd i) with
        | Returns tx_num =>
            sample_loop fuel' rnd (S i) num_transactions num_tx_rewarded
              (if existsb (Nat.eqb tx_num) rewarded_tx
               then rewarded_tx
               else rewarded_tx ++ [tx_num])
        | Raises e => Raises e
        | NoResult => NoResult
        end
    end
  else Returns rewarded_tx.

(** [for tx_num in rewarded_tx: reward_tx(...)]; [c] counts the clock
    readings made so far. *)
Fixpoint pay_rewards (rewarded_tx : list nat) (reward : float)
    (time_utc : nat -> string) (c : nat) (TXPOOL : dict Transaction)
  : outcome (dict Transaction) :=
  match rewarded_tx with
  | [] => Returns TXPOOL
  | tx_num :: rest =>
      match sender_of TXPOOL tx_num with
      | Returns a =>
          pay_rewards rest reward time_utc (S c)
                      (reward_tx a reward TXPOOL None (time_utc c))
      | Raises e => Raises e
      | NoResult => NoResult
      end
  end.

(** [mine] up to and including the payment of the miner: the pool with
    the reward transactions and the mining payment.  [time_utc c] is the
    clock reading of the [c]-th call of [reward_tx]. *)
Definition distribute (mine_params : MetaParams) (miner_addr : string)
    (rnd : Random) (time_utc : nat -> string) (fuel : nat)
  : outcome (dict Transaction) :=
  let percent_tx_rewarded := mp_percent_tx_rewarded mine_params in
  let TXPOOL := mp_TXPOOL mine_params in
  let reward := mp_reward_for_tx mine_params in
  let num_transactions := length TXPOOL in
  let num_tx_rewarded :=
    (percent_tx_rewarded * float_of_int (Z.of_nat num_transactions))%float in
  let rewarded :=
    if (num_tx_rewarded <? 1)%float then
      if (random_unit rnd <? percent_tx_rewarded)%float then
        (tx_num <- randint_below num_transactions (randint_raw rnd 0) ;;
         a <- sender_of TXPOOL tx_num ;;
         Returns (reward_tx a reward TXPOOL None (time_utc 0), 1))%outcome
      else Returns (TXPOOL, 0)
    else
      (m <- int_of_float num_tx_rewarded ;;
       rewarded_tx <- sample_loop fuel rnd 0 num_transactions m [] ;;
       TXPOOL' <- pay_rewards rewarded_tx reward time_utc 0 TXPOOL ;;
       Returns (TXPOOL', length rewarded_tx))%outcome in
  (r <- rewarded ;;
   Returns
     (reward_tx miner_addr
        (float_of_int (Z.of_nat num_transactions) * mp_mining_fees mine_params)%float
        (fst r) (Some "IceCereum-MiningPayment") (time_utc (snd r))))%outcome.

(** The string the nonce is appended to. *)
Definition challenge_str (mine_params : MetaParams)
    (TXPOOL : dict Transaction) : string :=
  (str_nat (mp_index mine_params) ++
   str_transactions TXPOOL ++
   mp_prev_hash mine_params ++
   str_int (mp_difficulty mine_params) ++
   str_float (mp_mining_fees mine_params) ++
   str_float (mp_reward_for_tx mine_params) ++
   str_float (mp_percent_tx_rewarded mine_params))%string.

(** [hex(nonce_int)[2:]] *)
Definition nonce_str (nonce_int : N) : string := slice_from_2 (hex nonce_int).

(** The digest tried for one nonce. *)
Definition digest (block_str : string) (nonce_int : N) : string :=
  sha3_256 (block_str ++ nonce_str nonce_int)%string.

(** [len(hash_string) - len(hash_string.lstrip('0'))] *)
Definition n_zeroes (hash_string : string) : nat :=
  String.length hash_string - String.length (lstrip "0"%char hash_string).

(** [while True]: the search from [nonce_int] upwards. *)
Fixpoint search (fuel : nat) (block_str : string) (difficulty : Z)
    (nonce_int : N) : outcome (string * N) :=
  match fuel with
  | O => NoResult
  | S fuel' =>
      let hash_string := digest block_str nonce_int in
      if (Z.of_nat (n_zeroes hash_string) =? difficulty)%Z
      then Returns (hash_string, nonce_int)
      else search fuel' block_str difficulty (nonce_int + 1)%N
  end.

(** [mine]. *)
Definition mine (mine_params : MetaParams) (miner_addr : string)
    (rnd : Random) (time_utc : nat -> string) (fuel : nat)
  : outcome (string * string * dict Transaction) :=
  (TXPOOL <- distribute mine_params miner_addr rnd time_utc fuel ;;
   found <- search fuel (challenge_str mine_params TXPOOL)
                   (mp_difficulty mine_params) 0%N ;;
   Returns (fst found, nonce_str (snd found), TXPOOL))%outcome.

End WithExtern.
End Miner.

(* ===================================================================== *)
(** ** API/miner-API.py *)
(* ===================================================================== *)

Definition MINING_ADDRESS : string :=
  "0x0acc12cb5c4d8eb3d3bc6540176af2318031ad92".

(** The JSON answer of [/mine-hash]. *)
Record MiningResp := mkMiningResp {
  hash_string : string;
  resp_nonce : string;
  resp_transactions : dict Transaction
}.

Module MinerAPI.
Section WithExtern.
Context {E : Extern}.

(** [mine_hash]. *)
Definition mine_hash (request_body : MetaParams) (rnd : Random)
    (time_utc : nat -> string) (fuel : nat) : outcome MiningResp :=
  (r <- Miner.mine request_body MINING_ADDRESS rnd time_utc fuel ;;
   Returns (mkMiningResp (fst (fst r)) (snd (fst r)) (snd r)))%outcome.

End WithExtern.
End MinerAPI.

(* ===================================================================== *)
(** ** API/chain-API.py *)
(* ===================================================================== *)

(** The session cookie: the keys ["identifier"] and ["one_time_nonce"],
    each present or not.  The client holds it and sends it back with
    every request of the next five minutes. *)
Record Session := mkSession {
  identifier : option string;
  one_time_nonce : option string
}.

(** The JSON body of a request to [/transfer-funds]; a key may be
    missing. *)
Record RequestBody := mkRequestBody {
  rq_sendr_addr : option string;
  rq_recvr_addr : option string;
  rq_value : option float;
  rq_one_time_nonce : option string;
  rq_skscript : option string;
  rq_skscript_nonce : option string
}.

(** What a route answers. *)
Inductive Response :=
| ErrorDesc (errno : nat) (detail : string)   (* error_desc_add_transaction *)
| NonceIssued (mining_fees : float) (nonce : string)
| TransactionAdded
| BlockCreated
| ErrorCreatingBlock
| InternalServerError.

Module ChainAPI.
Section WithExtern.
Context {E : Extern}.

(** [Crypto.get_latest_block_metaparams()["mining_fees"]] *)
Definition current_mining_fees (Crypto : Cryptocurrency) : option float :=
  match Chain.get_latest_block_metaparams Crypto with
  | Some m => Some (mp_mining_fees m)
  | None => None
  end.

(** [add_transaction], method GET: the answer and the session after. *)
Definition add_transaction_GET (Crypto : Cryptocurrency) (session : Session)
    (sendr_addr : option string) (uuid4_hex : string)
  : Response * Session :=
  match sendr_addr with
  | None => (ErrorDesc 1 "", session)
  | Some a =>
      let session := mkSession (Some a) (one_time_nonce session) in
      match current_mining_fees Crypto with
      | None => (InternalServerError, session)
      | Some mining_fees =>
          (NonceIssued mining_fees uuid4_hex, mkSession (Some a) (Some uuid4_hex))
      end
  end.

(** [if key not in request_body: missing_keys.append(key)] *)
Definition missing {A : Type} (key : string) (field : option A) : list string :=
  match field with
  | Some _ => []
  | None => [key]
  end.

(** The list [missing_keys]. *)
Definition missing_keys (request_body : RequestBody) : list string :=
  missing "sendr_addr" (rq_sendr_addr request_body) ++
  missing "recvr_addr" (rq_recvr_addr request_body) ++
  missing "value" (rq_value request_body) ++
  missing "one_time_nonce" (rq_one_time_nonce request_body) ++
  missing "skscript" (rq_skscript request_body) ++
  missing "skscript_nonce" (rq_skscript_nonce request_body).

(** ["{sendr_addr}{recvr_addr}{value}{nonce}".format(...)] *)
Definition message_to_sign (sendr_addr recvr_addr : string) (value : float)
    (nonce : string) : string :=
  (sendr_addr ++ recvr_addr ++ str_float value ++ nonce)%string.

(** [validate_acct.lstrip(" ").rstrip(" ").lower()] *)
Definition normalize_acct (validate_acct : string) : string :=
  lower (rstrip " "%char (lstrip " "%char validate_acct)).

(** The answers after [validate_add_transaction]; no [return] is
    reached for another code. *)
Definition validation_response (transaction_added : Z) : Response :=
  if (transaction_added =? -1)%Z then ErrorDesc 6 ""
  else if (transaction_added =? -2)%Z then ErrorDesc 7 ""
  else if (transaction_added =? 1)%Z then TransactionAdded
  else InternalServerError.

(** [add_transaction], method POST: the answer and the ledger after.
    The session is only read.  [InternalServerError] is the answer to a
    request whose handler raised: the [except] clause around the
    recovery names [ValidationError] only. *)
Definition add_transaction_POST (Crypto : Cryptocurrency) (session : Session)
    (request_body : RequestBody) (time_utc : string)
  : Response * Cryptocurrency :=
  match current_mining_fees Crypto with
  | None => (InternalServerError, Crypto)
  | Some MINING_FEES =>
  match identifier session with
  | None => (ErrorDesc 2 "identifier", Crypto)
  | Some _ =>
  match one_time_nonce session with
  | None => (ErrorDesc 2 "one_time_nonce", Crypto)
  | Some session_nonce =>
  match rq_sendr_addr request_body, rq_recvr_addr request_body,
        rq_value request_body, rq_one_time_nonce request_body,
        rq_skscript request_body, rq_skscript_nonce request_body with
  | Some sendr_addr, Some recvr_addr, Some value, Some _,
    Some skscript, Some skscript_nonce =>
      if negb (isAddress sendr_addr) then (ErrorDesc 8 "", Crypto)
      else if negb (isAddress recvr_addr) then (ErrorDesc 9 "", Crypto)
      else
        let message := message_to_sign sendr_addr recvr_addr value session_nonce in
        match recover_message message skscript_nonce with
        | ValidationError => (ErrorDesc 4 "", Crypto)
        | OtherException _ => (InternalServerError, Crypto)
        | Signer validate_acct =>
            let validate_acct := normalize_acct validate_acct in
            if negb (String.eqb sendr_addr validate_acct)
            then (ErrorDesc 5 "", Crypto)
            else
              let '(transaction_added, Crypto') :=
                Chain.validate_add_transaction Crypto
                  (mkIncomingTx sendr_addr recvr_addr value skscript)
                  MINING_FEES time_utc in
              (validation_response transaction_added, Crypto')
        end
  | _, _, _, _, _, _ =>
      (ErrorDesc 3 (String.concat " " (missing_keys request_body)), Crypto)
  end end end end.

(** [Crypto.TXPOOL = pool] *)
Definition set_TXPOOL (Crypto : Cryptocurrency) (pool : dict Transaction)
  : Cryptocurrency :=
  {| index := index Crypto;
     chain := chain Crypto;
     transaction_number := transaction_number Crypto;
     TXPOOL := pool;
     _difficulty := _difficulty Crypto;
     _percentage_of_transactions_rewarded :=
       _percentage_of_transactions_rewarded Crypto;
     _mining_fees := _mining_fees Crypto;
     _reward_for_transaction := _reward_for_transaction Crypto;
     blocks_path := blocks_path Crypto |}.

(** The helper [create_block] of the API: any exception becomes -1. *)
Definition create_block (Crypto : Cryptocurrency)
    (mined_block_hash nonce : string) (time_utc : string)
  : Z * Response * Cryptocurrency :=
  match Chain.create_block Crypto mined_block_hash nonce time_utc with
  | None =>
      ((-1)%Z, ErrorCreatingBlock,
       Chain.create_block_raised Crypto mined_block_hash nonce time_utc)
  | Some (Crypto', _) => (1%Z, BlockCreated, Crypto')
  end.

(** [mine_block]; [mining_resp] is the JSON the mining node answers to
    the metaparameters posted to it. *)
Definition mine_block (Crypto : Cryptocurrency)
    (mining_resp : MetaParams -> MiningResp) (time_utc : string)
  : Response * Cryptocurrency :=
  match Chain.get_latest_block_metaparams Crypto with
  | None => (InternalServerError, Crypto)
  | Some POST_data =>
      let resp := mining_resp POST_data in
      let Crypto := set_TXPOOL Crypto (resp_transactions resp) in
      let '(_, message, Crypto) :=
        create_block Crypto (hash_string resp) (resp_nonce resp) time_utc in
      (message, Crypto)
  end.

(** The route [/create-genesis]. *)
Definition create_genesis (files : dict BlockDict) (address : string)
    (amount : float) (t_tx t_block : string) : option Cryptocurrency :=
  Chain.init_genesis files address amount t_tx t_block.

(** The route [/load-chain]: a new [Cryptocurrency()] that loads the
    files in the order the directory listing yields them. *)
Definition load_chain (files : dict BlockDict) (listing : list BlockDict)
    (time_utc : string) : Cryptocurrency :=
  Chain.load_chain (Chain.init files) listing time_utc.

End WithExtern.
End ChainAPI.

(* ===================================================================== *)
(** ** Vocabulary of the properties *)
(* ===================================================================== *)

(** The calls that change a ledger. *)
Inductive Call :=
| CallAdd (sendr_addr recvr_addr : string) (value mining_fee : float)
          (timestamp : string) (skscript : option string)
| CallValidate (incoming_tx : IncomingTx) (mining_fees : float)
               (time_utc : string)
| CallPost (session : Session) (request_body : RequestBody) (time_utc : string)
| CallCreateBlock (mined_block_hash nonce time_utc : string)
| CallMineBlock (mining_resp : MetaParams -> MiningResp) (time_utc : string).

(** The calls of the class [Cryptocurrency] itself and of the transfer
    route: every transaction they store goes through
    [Cryptocurrency.add_transaction]. *)
Definition stores_by_add_transaction (c : Call) : bool :=
  match c with
  | CallMineBlock _ _ => false
  | _ => true
  end.

Section Vocabulary.
Context {E : Extern}.

(** The ledger after one call, also when the call raises. *)
Definition run_call (s : Cryptocurrency) (c : Call) : Cryptocurrency :=
  match c with
  | CallAdd a b v f t k => Chain.add_transaction s a b v f t k
  | CallValidate tx f t => snd (Chain.validate_add_transaction s tx f t)
  | CallPost session rq t => snd (ChainAPI.add_transaction_POST s session rq t)
  | CallCreateBlock h n t =>
      match Chain.create_block s h n t with
      | Some (s', _) => s'
      | None => Chain.create_block_raised s h n t
      end
  | CallMineBlock r t => snd (ChainAPI.mine_block s r t)
  end.

Definition run_calls (s : Cryptocurrency) (cs : list Call) : Cryptocurrency :=
  fold_left run_call cs s.

(** A ledger built by genesis creation followed by calls. *)
Definition built_from_genesis (cs : list Call) (s : Cryptocurrency) : Prop :=
  exists files address amount t_tx t_block s0,
    Chain.init_genesis files address amount t_tx t_block = Some s0 /\
    s = run_calls s0 cs.

(** Does the call return, if it is a seal?  [Cryptocurrency.create_block]
    returns its block; the route [mine_block] answers "BLOCK CREATED". *)
Definition seal_returns (s : Cryptocurrency) (c : Call) : bool :=
  match c with
  | CallCreateBlock h n t =>
      match Chain.create_block s h n t with
      | Some _ => true
      | None => false
      end
  | CallMineBlock r t =>
      match fst (ChainAPI.mine_block s r t) with
      | BlockCreated => true
      | _ => false
      end
  | _ => true
  end.

(** Every seal of the run of [cs] from [s] returns. *)
Fixpoint seals_return (s : Cryptocurrency) (cs : list Call) : bool :=
  match cs with
  | [] => true
  | c :: cs' => seal_returns s c && seals_return (run_call s c) cs'
  end.

(** A ledger built by genesis creation followed by calls whose seals
    all returned. *)
Definition built_by_returning_seals (cs : list Call) (s : Cryptocurrency)
  : Prop :=
  exists files address amount t_tx t_block s0,
    Chain.init_genesis files address amount t_tx t_block = Some s0 /\
    seals_return s0 cs = true /\
    s = run_calls s0 cs.

(** The transactions of the committed blocks, in block order, then the
    live pool. *)
Definition committed (s : Cryptocurrency) : list Transaction :=
  flat_map (fun b => dict_values (transactions b)) (chain s).

Definition history (s : Cryptocurrency) : list Transaction :=
  committed s ++ dict_values (TXPOOL s).

(** [a] is the sender or the receiver of [tx]. *)
Definition involves (a : string) (tx : Transaction) : bool :=
  String.eqb (sendr_addr tx) a || String.eqb (recvr_addr tx) a.

(** [a] is the sender or the receiver of some transaction of [h]. *)
Definition appears (a : string) (h : list Transaction) : bool :=
  existsb (involves a) h.

(** One term of the sum: minus [value] where [a] sends, then plus
    [final_value] where [a] receives. *)
Definition net_step (a : string) (acc : float) (tx : Transaction) : float :=
  let acc := if String.eqb (sendr_addr tx) a
             then (acc - value tx)%float else acc in
  if String.eqb (recvr_addr tx) a
  then (acc + final_value tx)%float else acc.

(** The sum over [h], taken in order from 0.0. *)
Definition net_received (a : string) (h : list Transaction) : float :=
  fold_left (net_step a) h 0%float.

(** The two answers of the signature check of the transfer route. *)
Definition authentication_failed (r : Response) : bool :=
  match r with
  | ErrorDesc 4 _ => true
  | ErrorDesc 5 _ => true
  | _ => false
  end.

(** The chain is linked: positions are indices, the first block carries
    the sentinel 0 and every later block the recomputed digest of the
    block before it. *)
Definition linked (l : list Block) : Prop :=
  forall i b, nth_error l i = Some b ->
    block_index b = i /\
    match i with
    | O => previous_block_hash b = PrevInt 0
    | S p => exists bp, nth_error l p = Some bp /\
                        previous_block_hash b = PrevStr (block_hash bp)
    end.

(** The invariant of the chain: [index] counts the blocks and the
    chain is linked. *)
Definition chain_inv (s : Cryptocurrency) : Prop :=
  index s = length (chain s) /\ linked (chain s).

(** Every transaction of the history has lower-cased addresses. *)
Definition all_lowercased (s : Cryptocurrency) : Prop :=
  Forall (fun tx => lower (sendr_addr tx) = sendr_addr tx /\
                    lower (recvr_addr tx) = recvr_addr tx) (history s).

(** The pool is keyed "0", "1", ... in insertion order. *)
Definition keyed_in_order (pool : dict Transaction) : Prop :=
  dict_keys pool = key_range (length pool).

(** The counter is the size of the pool, and the pool is keyed in
    order. *)
Definition counter_inv (s : Cryptocurrency) : Prop :=
  transaction_number s = length (TXPOOL s) /\ keyed_in_order (TXPOOL s).

(** A reward transaction, as [reward_tx] builds it, paid to [to]. *)
Definition is_reward (reward : float) (to : string) (tx : Transaction) : Prop :=
  sendr_addr tx = "IceCereum-Rewards" /\
  recvr_addr tx = to /\
  value tx = reward /\
  mining_fee tx = 0%float /\
  final_value tx = reward.

(** The payment of the miner. *)
Definition is_mining_payment (miner_addr : string) (amount : float)
    (tx : Transaction) : Prop :=
  sendr_addr tx = "IceCereum-MiningPayment" /\
  recvr_addr tx = miner_addr /\
  value tx = amount /\
  mining_fee tx = 0%float /\
  final_value tx = amount.

(** [tx] rewards the sender of the transaction of [pool] at position
    [i]. *)
Definition rewards_sender_of (pool : dict Transaction) (reward : float)
    (i : nat) (tx : Transaction) : Prop :=
  exists t, nth_error (dict_values pool) i = Some t /\
            is_reward reward (sendr_addr t) tx.

(** [pool'] is [pool], then one reward for each position of [picked],
    in this order, then the payment of the miner; its keys go on in
    order. *)
Definition augmented_by (pool pool' : dict Transaction) (picked : list nat)
    (reward : float) (miner_addr : string) (amount : float) : Prop :=
  exists rewards payment,
    pool' = pool ++ rewards ++ [payment] /\
    keyed_in_order pool' /\
    Forall2 (rewards_sender_of pool reward) picked (dict_values rewards) /\
    is_mining_payment miner_addr amount (snd payment).

(** The first [k] answers of [randint(0, n - 1)]. *)
Definition first_draws (rnd : Random) (n k : nat) : list nat :=
  map (fun i => randint_raw rnd i mod n) (seq 0 k).


End Vocabulary.

(* ===================================================================== *)
(** ** A small instance, to run the code on examples *)
(* ===================================================================== *)

(** The last character of a string. *)
Fixpoint last_char (s : string) : option ascii :=
  match s with
  | EmptyString => None
  | String c EmptyString => Some c
  | String _ r => last_char r
  end.

(** A stand-in digest: the number of leading zeros depends on the last
    character of the input only. *)
Definition demo_sha3_256 (s : string) : string :=
  match last_char s with
  | Some "2"%char => "00ab"
  | Some "1"%char => "000c"
  | _ => "0abc"
  end.

(** The signature of 65 zero bytes, in hexadecimal. *)
Definition zero_signature : string :=
  ("0x" ++ String.concat "" (repeat "00" 65))%string.

(** A stand-in signature scheme: the signature is the signer's address
    in clear.  The signature of one byte has an unexpected length; the
    empty signature, a signature that is not hexadecimal and the
    signature of 65 zero bytes make the recovery raise exceptions of
    other classes. *)
Definition demo_recover_message (message signature : string) : Recovered :=
  if String.eqb signature "0x00" then ValidationError
  else if String.eqb signature "" then OtherException "IndexError"
  else if String.eqb signature "zz" then OtherException "binascii.Error"
  else if String.eqb signature zero_signature then OtherException "BadSignature"
  else Signer signature.

(** A stand-in for [math.exp] with the range of the real one: it
    overflows above 709.782712893384. *)
Definition demo_exp (x : float) : option float :=
  if (709.782712893384 <? x)%float then None else Some x.

Definition demo_extern : Extern :=
  {| sha3_256 := demo_sha3_256;
     str_transaction := fun t => (sendr_addr t ++ ">" ++ recvr_addr t)%string;
     str_transactions := fun d => String.concat "," (dict_keys d);
     str_float := fun _ => "1.0";
     exp := demo_exp;
     isAddress := fun a => prefix "0x" a;
     recover_message := demo_recover_message |}.


(** The ledger right after genesis: 1000 coins to "0xab". *)
Definition demo_genesis : Cryptocurrency :=
  match Chain.init_genesis (E := demo_extern) [] "0xab" 1000 "t0" "t1" with
  | Some s => s
  | None => Chain.init []
  end.

(** What an honest mining node answers: [mine] run with [fuel] steps. *)
Definition demo_mining_resp (rnd : Random) (fuel : nat)
    (POST_data : MetaParams) : MiningResp :=
  match MinerAPI.mine_hash (E := demo_extern) POST_data rnd
                           (fun c => "t" ++ str_nat c)%string fuel with
  | Returns r => r
  | _ => mkMiningResp "" "" (mp_TXPOOL POST_data)
  end.

(** The ledger after genesis and one mined (empty) pool. *)
Definition demo_mined : Cryptocurrency :=
  snd (ChainAPI.mine_block (E := demo_extern) demo_genesis
         (demo_mining_resp (mkRandom 0.5 (fun _ => 0)) 8) "t2").

(** Ten admissions of one coin from "0xab" to "0xcd", at fee 1. *)
Definition demo_admissions : list Call :=
  map (fun i => CallValidate (mkIncomingTx "0xab" "0xcd" 1 "sig") 1
                             ("t" ++ str_nat i)%string)
      (seq 0 10).

(** The ledger after genesis and these ten admissions. *)
Definition demo_ten : Cryptocurrency :=
  run_calls (E := demo_extern) demo_genesis demo_admissions.

(** The answer of the mining node for the pool of [demo_ten]. *)
Definition demo_ten_resp : MetaParams -> MiningResp :=
  demo_mining_resp (mkRandom 0.5 (fun i => i)) 8.

(** The ledger after [mine_block] on [demo_ten]. *)
Definition demo_ten_mined : Cryptocurrency :=
  snd (ChainAPI.mine_block (E := demo_extern) demo_ten demo_ten_resp "t11").

(** The block files of [demo_mined], listed last file first. *)
Definition demo_listing : list BlockDict :=
  rev (dict_values (blocks_path demo_mined)).

(** The ledger right after a genesis that pays 1000 coins to the
    address "IceCereum-MiningPayment". *)
Definition demo_named_genesis : Cryptocurrency :=
  match Chain.init_genesis (E := demo_extern) [] "IceCereum-MiningPayment"
                           1000 "t0" "t1" with
  | Some s => s
  | None => Chain.init []
  end.

(** The same ledger after one mined (empty) pool. *)
Definition demo_named_mined : Cryptocurrency :=
  snd (ChainAPI.mine_block (E := demo_extern) demo_named_genesis
         (demo_mining_resp (mkRandom 0.5 (fun _ => 0)) 8) "t2").

(** The request and the session of one transfer of 100 coins from
    "0xab" to "0xcd". *)
Definition demo_session : Session := mkSession (Some "0xab") (Some "5f2c").

Definition demo_request : RequestBody :=
  mkRequestBody (Some "0xab") (Some "0xcd") (Some 100%float) (Some "5f2c")
                (Some "script") (Some "0xab").

(* ===================================================================== *)
(** ** Blockchain/Chain.py: reading the block files back *)
(* ===================================================================== *)

Module ChainRead.

(** [get_complete_chain]; [block_files] is the content of the files in
    the order [rglob("*.json")] yields them.  The running pair is
    ([block_index] of [enumerate], [complete_chain]). *)
Definition get_complete_chain (block_files : list BlockDict) : dict BlockDict :=
  snd (fold_left
         (fun acc block_dict =>
            (S (fst acc), dict_set (str_nat (fst acc)) block_dict (snd acc)))
         block_files (0, [])).

(** [get_TXPOOL]. *)
Definition get_TXPOOL (self : Cryptocurrency) : dict Transaction := TXPOOL self.

End ChainRead.

(* ===================================================================== *)
(** ** More vocabulary *)
(* ===================================================================== *)

(** The records one transaction contributes to the answer of
    [get_transactions_of_addr]: a "send" copy if the address sent it,
    then a "receive" copy if the address received it. *)
Definition views_of (a : string) (in_txpool : bool) (t : Transaction)
  : list TxView :=
  (if String.eqb (sendr_addr t) a then [mkTxView t "send" in_txpool] else []) ++
  (if String.eqb (recvr_addr t) a then [mkTxView t "receive" in_txpool] else []).

(** All records for [a]: committed transactions first, then the pool. *)
Definition views (a : string) (s : Cryptocurrency) : list TxView :=
  flat_map (views_of a false) (committed s) ++
  flat_map (views_of a true) (dict_values (TXPOOL s)).

(** The dict that numbers a list from [str(a)] on. *)
Definition numbered_from {V : Type} (a : nat) (l : list V) : dict V :=
  combine (map str_nat (seq a (length l))) l.

(** The dict {"0": l[0], "1": l[1], ...}. *)
Definition numbered {V : Type} (l : list V) : dict V := numbered_from 0 l.

(** The name of the file of block [i]. *)
Definition file_name (i : nat) : string := (str_nat i ++ ".json")%string.

(** The block a block file describes. *)
Definition stored_block (d : BlockDict) : Block :=
  mkBlock (bd_block_index d) (bd_previous_block_hash d) (bd_mined_block_hash d)
          (bd_nonce d) (bd_difficulty d) (bd_transactions d) (bd_timestamp d).

(** The positions drawn so far, each once, in the order in which they
    first came: what the sampling loop of [mine] does with one draw. *)
Definition note_draw (rewarded_tx : list nat) (tx_num : nat) : list nat :=
  if existsb (Nat.eqb tx_num) rewarded_tx
  then rewarded_tx
  else rewarded_tx ++ [tx_num].

(** The different positions among the first [j] answers of
    [randint(0, n - 1)], in the order in which they first came. *)
Definition seen (rnd : Random) (n j : nat) : list nat :=
  fold_left note_draw (first_draws rnd n j) [].

Section MoreVocabulary.
Context {E : Extern}.

(** The directory holds "0.json", "1.json", ... in the order written,
    one file per block of the chain, each describing its block. *)
Definition disk_inv (s : Cryptocurrency) : Prop :=
  dict_keys (blocks_path s) = map file_name (seq 0 (index s)) /\
  map stored_block (dict_values (blocks_path s)) = chain s.

(** A ledger built by genesis creation in an empty directory followed
    by calls whose seals all returned. *)
Definition built_in_empty_directory (cs : list Call) (s : Cryptocurrency)
  : Prop :=
  exists address amount t_tx t_block s0,
    Chain.init_genesis [] address amount t_tx t_block = Some s0 /\
    seals_return s0 cs = true /\
    s = run_calls s0 cs.

End MoreVocabulary.

(** More examples: one stored transaction, the challenge for a pool,
    and a clock. *)
Definition demo_tx : Transaction :=
  Chain.make_transaction (E := demo_extern) "0xab" "0xcd" 1 1 "t0" (Some "sig").

Definition demo_params (pool : dict Transaction) (percent : float) : MetaParams :=
  mkMetaParams 1 pool "0abc" 2 1 (length pool) 1.5 percent.

Definition demo_clock (c : nat) : string := ("t" ++ str_nat c)%string.

(** Draws that repeat: 0, 0, 1, 1, ... *)
Definition demo_repeating : Random := mkRandom 0.5 (fun i => i / 2).

(** The ledger after genesis and 7108 stored transactions: the counter
    for which [math.exp((R - 10) / 10)] is out of range. *)
Definition demo_many : Cryptocurrency :=
  run_calls (E := demo_extern) demo_genesis
    (repeat (CallAdd "0xab" "0xcd" 1 1 "t5" None) (71 * 100 + 8)).

Unset Implicit Arguments.
(* ===================================================================== *)
(** ** Facts about the Python primitives *)
(* ===================================================================== *)

Lemma lower_ascii_idem (c : ascii) : lower_ascii (lower_ascii c) = lower_ascii c.
Proof.
  destruct c as [[] [] [] [] [] [] [] []]; reflexivity.
Qed.

Lemma lower_idem (s : string) : lower (lower s) = lower s.
Proof.
  induction s as [|c r IH]; simpl; [reflexivity|].
  now rewrite lower_ascii_idem, IH.
Qed.

Lemma is_upper_lower_ascii (c : ascii) : is_upper (lower_ascii c) = false.
Proof.
  destruct c as [[] [] [] [] [] [] [] []]; reflexivity.
Qed.

Lemma has_upper_lower (s : string) : has_upper (lower s) = false.
Proof.
  induction s as [|c r IH]; simpl; [reflexivity|].
  now rewrite is_upper_lower_ascii, IH.
Qed.

(** A string with an upper-case letter is no lower-cased string. *)
Lemma has_upper_not_lower (a s : string) :
  has_upper a = true -> lower s <> a.
Proof.
  intros Hup Heq. rewrite <- Heq, has_upper_lower in Hup. discriminate.
Qed.

Lemma str_nat_inj (n m : nat) : str_nat n = str_nat m -> n = m.
Proof.
  unfold str_nat. intros H.
  apply DecimalNat.Unsigned.to_uint_inj.
  assert (Hn : Nat.to_uint n <> Decimal.Nil).
  { intros Hnil. pose proof (DecimalNat.Unsigned.of_to n) as Hof.
    rewrite Hnil in Hof. simpl in Hof. subst n. discriminate Hnil. }
  assert (Hm : Nat.to_uint m <> Decimal.Nil).
  { intros Hnil. pose proof (DecimalNat.Unsigned.of_to m) as Hof.
    rewrite Hnil in Hof. simpl in Hof. subst m. discriminate Hnil. }
  pose proof (DecimalString.NilZero.usu _ Hn) as H1.
  pose proof (DecimalString.NilZero.usu _ Hm) as H2.
  rewrite H in H1. rewrite H1 in H2. now injection H2.
Qed.

Section DictFacts.
Variable V : Type.
Implicit Types (d : dict V) (k : string) (v : V).

Lemma dict_get_None_notin k d :
  dict_get k d = None <-> ~ In k (dict_keys d).
Proof.
  induction d as [|[k' v'] r IH]; simpl.
  - split; [intros _ []|reflexivity].
  - destruct (String.eqb_spec k' k) as [->|Hne].
    + split; [discriminate|]. intros H. exfalso. apply H. now left.
    + rewrite IH. split.
      * intros H [Hk|Hk]; [now apply Hne|now apply H].
      * intros H Hk. apply H. now right.
Qed.

(** Assigning to a new key appends. *)
Lemma dict_set_fresh k v d :
  ~ In k (dict_keys d) -> dict_set k v d = d ++ [(k, v)].
Proof.
  induction d as [|[k' v'] r IH]; simpl; intros H; [reflexivity|].
  destruct (String.eqb_spec k' k) as [->|Hne].
  - exfalso. apply H. now left.
  - rewrite IH; [reflexivity|]. intros Hk. apply H. now right.
Qed.

Lemma dict_get_app_l k d d' x :
  dict_get k d = Some x -> dict_get k (d ++ d') = Some x.
Proof.
  induction d as [|[k' v'] r IH]; simpl; [discriminate|].
  destruct (String.eqb k' k); auto.
Qed.

End DictFacts.

Lemma key_range_S (n : nat) : key_range (S n) = key_range n ++ [str_nat n].
Proof.
  unfold key_range. rewrite seq_S, map_app. reflexivity.
Qed.

Lemma key_range_fresh (n m : nat) : n <= m -> ~ In (str_nat m) (key_range n).
Proof.
  unfold key_range. intros Hle Hin.
  apply in_map_iff in Hin. destruct Hin as [j [Hj Hin]].
  apply str_nat_inj in Hj. apply in_seq in Hin. lia.
Qed.

Lemma length_key_range (n : nat) : length (key_range n) = n.
Proof. unfold key_range. now rewrite length_map, length_seq. Qed.

(* ===================================================================== *)
(** ** Invariants of the calls *)
(* ===================================================================== *)

(** A property kept by [add_transaction], by the writing of a block
    file, by a [create_block] that returns and by the [mine_block]
    route (where [ok] lets it in) is kept by every sequence of calls
    that [ok] lets in. *)
Section CallInvariant.
Context {E : Extern}.
Variable P : Cryptocurrency -> Prop.
Variable ok : Call -> bool.
Hypothesis P_add :
  forall s a b v f t k, P s -> P (Chain.add_transaction s a b v f t k).
Hypothesis P_file :
  forall s file_name block_dict,
    P s -> P (Chain.write_file s file_name block_dict).
Hypothesis P_seal :
  forall s h n t s' b, P s -> Chain.create_block s h n t = Some (s', b) -> P s'.
Hypothesis P_mine :
  forall s r t, ok (CallMineBlock r t) = true ->
                P s -> P (snd (ChainAPI.mine_block s r t)).

Lemma validate_keeps s tx f t :
  P s -> P (snd (Chain.validate_add_transaction s tx f t)).
Proof.
  intros H. unfold Chain.validate_add_transaction.
  destruct (Chain.get_balance_of_addr s _) as [fl bal].
  destruct (negb fl); [exact H|].
  destruct (_ <? _)%float; [exact H|].
  now apply P_add.
Qed.

Lemma post_keeps s session rq t :
  P s -> P (snd (ChainAPI.add_transaction_POST s session rq t)).
Proof.
  intros H. unfold ChainAPI.add_transaction_POST.
  repeat match goal with
         | |- context [match ?x with _ => _ end] =>
             match type of x with
             | option _ => destruct x
             | Recovered => destruct x
             | bool => destruct x
             end; simpl; try exact H
         end.
  match goal with
  | |- context [Chain.validate_add_transaction ?a ?b ?c ?d] =>
      pose proof (validate_keeps a b c d H) as Hv;
      destruct (Chain.validate_add_transaction a b c d) as [code s']
  end.
  exact Hv.
Qed.

(** A [create_block] that raises has at most written the block file. *)
Lemma create_block_raised_keeps s h n t :
  P s -> P (Chain.create_block_raised s h n t).
Proof.
  intros H. unfold Chain.create_block_raised, Chain.write_block.
  destruct (if negb (index s =? 0)%nat then _ else _) as [p|]; [|exact H].
  now apply P_file.
Qed.

Lemma run_call_keeps s c : ok c = true -> P s -> P (run_call s c).
Proof.
  intros Hc H. destruct c; simpl.
  - now apply P_add.
  - now apply validate_keeps.
  - now apply post_keeps.
  - destruct (Chain.create_block s _ _ _) as [[s' b]|] eqn:Hcb.
    + exact (P_seal _ _ _ _ _ _ H Hcb).
    + now apply create_block_raised_keeps.
  - now apply P_mine.
Qed.

Lemma run_calls_keep cs :
  forallb ok cs = true -> forall s, P s -> P (run_calls s cs).
Proof.
  induction cs as [|c cs IH]; intros Hcs s H; simpl in *; [exact H|].
  apply andb_true_iff in Hcs. destruct Hcs as [Hc Hcs].
  apply IH; [exact Hcs|]. now apply run_call_keeps.
Qed.

End CallInvariant.

(** A property kept by [add_transaction], by a [create_block] that
    returns and by a [mine_block] that answers "BLOCK CREATED" is kept
    by every run whose seals all return. *)
Section ReturningCalls.
Context {E : Extern}.
Variable P : Cryptocurrency -> Prop.
Hypothesis P_add :
  forall s a b v f t k, P s -> P (Chain.add_transaction s a b v f t k).
Hypothesis P_seal :
  forall s h n t s' b, P s -> Chain.create_block s h n t = Some (s', b) -> P s'.
Hypothesis P_mined :
  forall s r t s', P s -> ChainAPI.mine_block s r t = (BlockCreated, s') -> P s'.

Lemma run_call_keeps_returning s c :
  seal_returns s c = true -> P s -> P (run_call s c).
Proof.
  intros Hc H. destruct c; simpl in *.
  - now apply P_add.
  - now apply (validate_keeps P P_add).
  - now apply (post_keeps P P_add).
  - destruct (Chain.create_block s _ _ _) as [[s' b]|] eqn:Hcb; [|discriminate].
    exact (P_seal _ _ _ _ _ _ H Hcb).
  - destruct (ChainAPI.mine_block s mining_resp time_utc) as [answer s'] eqn:Hm.
    simpl in *. destruct answer; try discriminate.
    exact (P_mined _ _ _ _ H Hm).
Qed.

Lemma run_calls_keep_returning cs :
  forall s, seals_return s cs = true -> P s -> P (run_calls s cs).
Proof.
  induction cs as [|c cs IH]; intros s Hcs H; simpl in *; [exact H|].
  apply andb_true_iff in Hcs. destruct Hcs as [Hc Hcs].
  apply IH; [exact Hcs|]. now apply run_call_keeps_returning.
Qed.

End ReturningCalls.

Lemma forallb_true {A : Type} (l : list A) : forallb (fun _ => true) l = true.
Proof. induction l; simpl; auto. Qed.

(* ===================================================================== *)
(** ** The chain stays linked *)
(* ===================================================================== *)

Section ChainLinkage.
Context {E : Extern}.

Lemma last_block_snoc (s : Cryptocurrency) (b : Block) :
  Chain.last_block s = Some b -> exists l, chain s = l ++ [b].
Proof.
  unfold Chain.last_block. intros H.
  destruct (rev (chain s)) as [|x r] eqn:Hrev; [discriminate|].
  injection H as ->. exists (rev r).
  rewrite <- (rev_involutive (chain s)), Hrev. reflexivity.
Qed.

Lemma last_block_nonempty (s : Cryptocurrency) :
  chain s <> [] -> exists b, Chain.last_block s = Some b.
Proof.
  unfold Chain.last_block. intros H.
  destruct (rev (chain s)) as [|x r] eqn:Hrev; [|now exists x].
  exfalso. apply H. rewrite <- (rev_involutive (chain s)), Hrev. reflexivity.
Qed.

Lemma linked_first (b : Block) :
  block_index b = 0 -> previous_block_hash b = PrevInt 0 -> linked [b].
Proof.
  intros Hi Hp i b' Hnth. destruct i as [|[|i]]; simpl in Hnth; try discriminate.
  injection Hnth as <-. now split.
Qed.

Lemma linked_snoc (l : list Block) (bp b : Block) :
  linked (l ++ [bp]) ->
  block_index b = length (l ++ [bp]) ->
  previous_block_hash b = PrevStr (block_hash bp) ->
  linked ((l ++ [bp]) ++ [b]).
Proof.
  intros Hl Hi Hp i b' Hnth.
  destruct (Nat.lt_ge_cases i (length (l ++ [bp]))) as [Hlt|Hge].
  - rewrite nth_error_app1 in Hnth by exact Hlt.
    destruct (Hl i b' Hnth) as [Hidx Hprev]. split; [exact Hidx|].
    destruct i as [|p]; [exact Hprev|].
    destruct Hprev as [bq [Hq Hh]]. exists bq. split; [|exact Hh].
    rewrite nth_error_app1; [exact Hq|lia].
  - rewrite nth_error_app2 in Hnth by exact Hge.
    destruct (i - length (l ++ [bp])) as [|k] eqn:Hk; simpl in Hnth;
      [|destruct k; discriminate].
    injection Hnth as <-.
    assert (Hi' : i = length (l ++ [bp])) by lia.
    split; [congruence|].
    rewrite Hi'. rewrite length_app. simpl length. rewrite Nat.add_1_r.
    exists bp. split; [|exact Hp].
    rewrite nth_error_app1 by (rewrite length_app; simpl; lia).
    rewrite nth_error_app2 by lia. now rewrite Nat.sub_diag.
Qed.

Lemma init_chain_inv (files : dict BlockDict) : chain_inv (Chain.init files).
Proof.
  split; [reflexivity|]. intros i b H. destruct i; discriminate.
Qed.

Lemma add_transaction_chain_inv s a b v f t k :
  chain_inv s -> chain_inv (Chain.add_transaction s a b v f t k).
Proof. intros H. exact H. Qed.

(** [create_block] in one piece: the previous hash, the fee that
    [set_metaparams] computes from the counter, the new state. *)
Lemma create_block_unfold s h n t :
  Chain.create_block s h n t
  = match (if negb (index s =? 0)%nat then
             match Chain.last_block s with
             | Some b => Some (PrevStr (block_hash b))
             | None => None
             end
           else Some (PrevInt 0)) with
    | None => None
    | Some previous_hash =>
        match Chain.Mu (transaction_number s) with
        | None => None
        | Some mu =>
            let block :=
              Block_init (index s) h previous_hash n (_difficulty s)
                         (TXPOOL s) None t in
            Some ({| index := index s + 1;
                     chain := chain s ++ [block];
                     transaction_number := 0;
                     TXPOOL := [];
                     _difficulty := _difficulty s;
                     _percentage_of_transactions_rewarded :=
                       _percentage_of_transactions_rewarded s;
                     _mining_fees := mu;
                     _reward_for_transaction := (1.5 * mu)%float;
                     blocks_path :=
                       dict_set (str_nat (index s) ++ ".json")
                         {| bd_block_index := index s;
                            bd_previous_block_hash := previous_hash;
                            bd_difficulty := _difficulty s;
                            bd_nonce := n;
                            bd_mined_block_hash := h;
                            bd_percent_tx_rewarded :=
                              _percentage_of_transactions_rewarded s;
                            bd_mining_fee := _mining_fees s;
                            bd_reward_for_tx := _reward_for_transaction s;
                            bd_transactions := TXPOOL s;
                            bd_timestamp := block_timestamp block |}
                         (blocks_path s) |},
                  block)
        end
    end.
Proof.
  unfold Chain.create_block, Chain.write_block, Chain.set_metaparams.
  destruct (if negb (index s =? 0)%nat then _ else _) as [p|]; [|reflexivity].
  cbn [transaction_number Chain.write_file].
  destruct (Chain.Mu (transaction_number s)); reflexivity.
Qed.

Lemma Mu_at_most_ten (R : nat) : R <= 10 -> Chain.Mu R = Some 1%float.
Proof.
  intros H. unfold Chain.Mu.
  destruct (Nat.leb_spec R 10) as [_|Hgt]; [reflexivity|lia].
Qed.

(** On a ledger that satisfies the invariant, sealing raises only when
    [exp] overflows in [set_metaparams]. *)
Lemma create_block_returns s h n t :
  chain_inv s -> Chain.Mu (transaction_number s) <> None ->
  exists s' b, Chain.create_block s h n t = Some (s', b).
Proof.
  intros [Hidx _] Hmu. rewrite create_block_unfold.
  destruct (index s =? 0)%nat eqn:H0; simpl.
  - destruct (Chain.Mu (transaction_number s));
      [do 2 eexists; reflexivity|now elim Hmu].
  - apply Nat.eqb_neq in H0.
    destruct (last_block_nonempty s) as [bp Hbp].
    { intros Hnil. rewrite Hnil in Hidx. simpl in Hidx. lia. }
    rewrite Hbp.
    destruct (Chain.Mu (transaction_number s));
      [do 2 eexists; reflexivity|now elim Hmu].
Qed.

(** When [exp] overflows, [create_block] raises after the block file
    is written: the ledger is as before but for this file. *)
Lemma create_block_overflow s h n t :
  chain_inv s -> Chain.Mu (transaction_number s) = None ->
  Chain.create_block s h n t = None /\
  exists block_dict,
    Chain.create_block_raised s h n t
    = Chain.write_file s (str_nat (index s) ++ ".json") block_dict /\
    bd_block_index block_dict = index s /\
    bd_transactions block_dict = TXPOOL s.
Proof.
  intros [Hidx _] Hmu. rewrite create_block_unfold.
  unfold Chain.create_block_raised, Chain.write_block.
  destruct (index s =? 0)%nat eqn:H0; simpl.
  - rewrite Hmu. split; [reflexivity|]. eexists. repeat split.
  - apply Nat.eqb_neq in H0.
    destruct (last_block_nonempty s) as [bp Hbp].
    { intros Hnil. rewrite Hnil in Hidx. simpl in Hidx. lia. }
    rewrite Hbp, Hmu. split; [reflexivity|]. eexists. repeat split.
Qed.

Lemma create_block_chain_inv s h n t s' b :
  chain_inv s -> Chain.create_block s h n t = Some (s', b) -> chain_inv s'.
Proof.
  intros [Hidx Hl]. rewrite create_block_unfold.
  destruct (index s =? 0)%nat eqn:H0; simpl.
  - destruct (Chain.Mu (transaction_number s)) as [mu|]; [|discriminate].
    apply Nat.eqb_eq in H0. intros H. injection H as <- <-.
    rewrite H0 in Hidx. destruct (chain s) as [|x r] eqn:Hc; [|discriminate].
    split; simpl.
    + rewrite H0. reflexivity.
    + apply linked_first; simpl; [exact H0|reflexivity].
  - destruct (Chain.last_block s) as [bp|] eqn:Hbp; [|discriminate].
    destruct (Chain.Mu (transaction_number s)) as [mu|]; [|discriminate].
    intros H. injection H as <- <-.
    destruct (last_block_snoc s bp Hbp) as [l Hc].
    split; simpl.
    + rewrite length_app. simpl. lia.
    + rewrite Hc in *. apply linked_snoc; [exact Hl|exact Hidx|reflexivity].
Qed.

Lemma mine_block_chain_inv s r t :
  chain_inv s -> chain_inv (snd (ChainAPI.mine_block s r t)).
Proof.
  intros H. unfold ChainAPI.mine_block.
  destruct (Chain.get_latest_block_metaparams s) as [m|]; [|exact H].
  unfold ChainAPI.create_block.
  set (s1 := ChainAPI.set_TXPOOL s _).
  assert (H1 : chain_inv s1) by exact H.
  destruct (Chain.create_block s1 _ _ t) as [[s' b]|] eqn:Hc; simpl.
  - exact (create_block_chain_inv _ _ _ _ _ _ H1 Hc).
  - apply (create_block_raised_keeps chain_inv); [|exact H1].
    intros s0 k d H0. exact H0.
Qed.

Lemma run_calls_chain_inv cs : forall s, chain_inv s -> chain_inv (run_calls s cs).
Proof.
  apply (run_calls_keep chain_inv (fun _ => true)).
  - apply add_transaction_chain_inv.
  - intros s k d H. exact H.
  - apply create_block_chain_inv.
  - intros s r t _. apply mine_block_chain_inv.
  - apply forallb_true.
Qed.

Lemma init_genesis_chain_inv files address amount t1 t2 s0 :
  Chain.init_genesis files address amount t1 t2 = Some s0 -> chain_inv s0.
Proof.
  unfold Chain.init_genesis. intros H.
  destruct (Chain.create_block _ _ _ _) as [[s' b]|] eqn:Hc; [|discriminate].
  injection H as <-.
  refine (create_block_chain_inv _ _ _ _ _ _ _ Hc).
  apply add_transaction_chain_inv, init_chain_inv.
Qed.

Lemma built_chain_inv cs s : built_from_genesis cs s -> chain_inv s.
Proof.
  intros (files & address & amount & t1 & t2 & s0 & Hg & ->).
  apply run_calls_chain_inv. exact (init_genesis_chain_inv _ _ _ _ _ _ Hg).
Qed.

(** Genesis creation always succeeds. *)
Lemma init_genesis_returns files address amount t1 t2 :
  exists s0, Chain.init_genesis files address amount t1 t2 = Some s0.
Proof.
  unfold Chain.init_genesis.
  destruct (create_block_returns
              (Chain.add_transaction (Chain.init files) "Genesis" address
                 amount 0 t1 None) "0" "0" t2) as (s' & b & ->).
  - apply add_transaction_chain_inv, init_chain_inv.
  - rewrite Mu_at_most_ten; [discriminate|simpl; lia].
  - eauto.
Qed.

(** C1.  In every chain built by genesis creation followed by any
    sequence of admissions and seals (through the class or through the
    routes of the API), the block at position [i] has
    [block_index = i], the block at position 0 has
    [previous_block_hash = 0], and the block at a position [i > 0] has
    as [previous_block_hash] the recomputed [block_hash] of the block at
    position [i - 1]. *)
Theorem chain_linkage (cs : list Call) (s : Cryptocurrency) :
  built_from_genesis cs s ->
  forall i b, nth_error (chain s) i = Some b ->
    block_index b = i /\
    match i with
    | O => previous_block_hash b = PrevInt 0
    | S p => exists bp, nth_error (chain s) p = Some bp /\
                        previous_block_hash b = PrevStr (block_hash bp)
    end.
Proof.
  intros Hb. destruct (built_chain_inv cs s Hb) as [_ Hl]. exact Hl.
Qed.

End ChainLinkage.

Lemma chain_linkage_witness :
  exists b,
    nth_error (chain demo_mined) 1 = Some b /\
    block_index b = 1 /\
    exists bp, nth_error (chain demo_mined) 0 = Some bp /\
               previous_block_hash b = PrevStr (block_hash (E := demo_extern) bp).
Proof.
  eexists. split; [reflexivity|].
  apply (chain_linkage (E := demo_extern)
           [CallMineBlock (demo_mining_resp (mkRandom 0.5 (fun _ => 0)) 8) "t2"]
           demo_mined).
  - exists [], "0xab", 1000%float, "t0", "t1", demo_genesis.
    split; reflexivity.
  - reflexivity.
Defined.

(* ===================================================================== *)
(** ** Balances *)
(* ===================================================================== *)

Section Balances.

(** The nested loops over the blocks scan the committed transactions in
    order. *)
Lemma fold_blocks_flat {A : Type} (f : A -> Transaction -> A)
    (l : list Block) (acc : A) :
  fold_left (fun acc b => fold_left f (dict_values (transactions b)) acc) l acc
  = fold_left f (flat_map (fun b => dict_values (transactions b)) l) acc.
Proof.
  revert acc. induction l as [|b l IH]; intros acc; simpl; [reflexivity|].
  rewrite fold_left_app. apply IH.
Qed.

Lemma balance_step_spec (a : string) (flag : bool) (bal : float)
    (tx : Transaction) :
  Chain.balance_step a (flag, bal) tx = (flag || involves a tx, net_step a bal tx).
Proof.
  unfold Chain.balance_step, involves, net_step.
  destruct (String.eqb (sendr_addr tx) a), (String.eqb (recvr_addr tx) a);
    simpl; rewrite ?orb_true_r, ?orb_false_r; reflexivity.
Qed.

Lemma balance_scan_spec (a : string) (h : list Transaction) :
  forall flag bal,
    fold_left (Chain.balance_step a) h (flag, bal)
    = (flag || existsb (involves a) h, fold_left (net_step a) h bal).
Proof.
  induction h as [|tx h IH]; intros flag bal; cbn [fold_left existsb].
  - now rewrite orb_false_r.
  - rewrite balance_step_spec, IH, orb_assoc. reflexivity.
Qed.

Lemma net_step_uninvolved (a : string) (acc : float) (tx : Transaction) :
  involves a tx = false -> net_step a acc tx = acc.
Proof.
  unfold involves, net_step. intros H. apply orb_false_iff in H.
  destruct H as [-> ->]. reflexivity.
Qed.

Lemma net_scan_uninvolved (a : string) (h : list Transaction) :
  forall acc, existsb (involves a) h = false -> fold_left (net_step a) h acc = acc.
Proof.
  induction h as [|tx h IH]; intros acc H; cbn [fold_left existsb] in *;
    [reflexivity|].
  apply orb_false_iff in H. destruct H as [H1 H2].
  rewrite net_step_uninvolved by exact H1. now apply IH.
Qed.

(** What [get_balance_of_addr] computes, over the whole history. *)
Lemma get_balance_of_addr_spec (s : Cryptocurrency) (address : string) :
  Chain.get_balance_of_addr s address
  = (appears (lower address) (history s),
     net_received (lower address) (history s)).
Proof.
  unfold Chain.get_balance_of_addr, appears, net_received, history, committed.
  rewrite fold_blocks_flat, <- fold_left_app, balance_scan_spec.
  reflexivity.
Qed.

(** C2, as the code has it.  For every ledger and every address,
    [get_balance_of_addr] returns (exists, balance) where both are taken
    for the lower-cased address: balance is the sum, over the
    transactions of the committed blocks in block order and then of the
    live pool, of minus [value] where the lower-cased address is the
    sender and plus [final_value] where it is the receiver; exists is
    true exactly when the lower-cased address is the sender or the
    receiver of one of these transactions; and when it is of none, the
    result is (false, 0.0). *)
Theorem get_balance_of_addr_lowercased (s : Cryptocurrency) (address : string) :
  Chain.get_balance_of_addr s address
  = (appears (lower address) (history s),
     net_received (lower address) (history s)) /\
  (appears (lower address) (history s) = false ->
   Chain.get_balance_of_addr s address = (false, 0%float)).
Proof.
  split; [apply get_balance_of_addr_spec|].
  intros H. rewrite get_balance_of_addr_spec, H.
  unfold net_received. unfold appears in H.
  now rewrite net_scan_uninvolved.
Qed.

Lemma get_balance_of_addr_lowercased_witness :
  appears (lower "0xCD") (history demo_genesis) = false /\
  Chain.get_balance_of_addr demo_genesis "0xCD" = (false, 0%float).
Proof.
  split; [reflexivity|].
  apply (proj2 (get_balance_of_addr_lowercased demo_genesis "0xCD")).
  reflexivity.
Defined.

(** C2 as stated fails.  Asked for "0xAB" on the ledger whose only
    transaction pays "0xab", [get_balance_of_addr] answers
    (true, 1000.0) although "0xAB" is neither sender nor receiver of
    any transaction; asked for "IceCereum-MiningPayment" on a ledger
    with a mined block, it answers (false, 0.0) although that string is
    the sender of the block's mining payment. *)
Lemma get_balance_of_addr_verbatim_counterexample :
  (Chain.get_balance_of_addr demo_genesis "0xAB" = (true, 1000%float) /\
   appears "0xAB" (history demo_genesis) = false /\
   Chain.get_balance_of_addr demo_genesis "0xAB"
   <> (appears "0xAB" (history demo_genesis),
       net_received "0xAB" (history demo_genesis))) /\
  (Chain.get_balance_of_addr demo_mined "IceCereum-MiningPayment"
   = (false, 0%float) /\
   appears "IceCereum-MiningPayment" (history demo_mined) = true /\
   Chain.get_balance_of_addr demo_mined "IceCereum-MiningPayment"
   <> (appears "IceCereum-MiningPayment" (history demo_mined),
       net_received "IceCereum-MiningPayment" (history demo_mined))).
Proof.
  repeat split; try (vm_compute; reflexivity); vm_compute; discriminate.
Qed.

End Balances.

(* ===================================================================== *)
(** ** Admission *)
(* ===================================================================== *)

Section Admission.
Context {E : Extern}.

Lemma dict_get_set_same {V : Type} (k : string) (v : V) (d : dict V) :
  dict_get k (dict_set k v d) = Some v.
Proof.
  induction d as [|[k' v'] r IH]; simpl.
  - now rewrite String.eqb_refl.
  - destruct (String.eqb k' k) eqn:Hk; simpl.
    + now rewrite String.eqb_refl.
    + now rewrite Hk.
Qed.

Lemma get_balance_of_addr_lower (s : Cryptocurrency) (address : string) :
  Chain.get_balance_of_addr s (lower address) = Chain.get_balance_of_addr s address.
Proof.
  unfold Chain.get_balance_of_addr. now rewrite lower_idem.
Qed.

(** C8.  With (exists, balance) what [get_balance_of_addr] reports for
    the sender of the incoming transaction, that is, taken over the
    history for the lower-cased sender: [validate_add_transaction]
    returns -2 and the ledger as it was when the sender does not exist;
    returns -1 and the ledger as it was when the sender exists but its
    balance is strictly less than value + fee; and otherwise returns 1
    with the ledger in which [TXPOOL[str(transaction_number)]] is the
    new transaction, carrying the supplied fee and
    [final_value = value - fee], and [transaction_number] is one more. *)
Theorem validate_add_transaction_cases (s : Cryptocurrency)
    (incoming_tx : IncomingTx) (mining_fees : float) (time_utc : string) :
  let sender := lower (in_sendr_addr incoming_tx) in
  let receiver := lower (in_recvr_addr incoming_tx) in
  let lookup := Chain.get_balance_of_addr s (in_sendr_addr incoming_tx) in
  let stored :=
    Chain.make_transaction sender receiver (in_value incoming_tx) mining_fees
      time_utc (Some (in_skscript incoming_tx)) in
  let accepted :=
    Chain.add_transaction s sender receiver (in_value incoming_tx) mining_fees
      time_utc (Some (in_skscript incoming_tx)) in
  Chain.validate_add_transaction s incoming_tx mining_fees time_utc
  = (if negb (fst lookup) then (TX_NO_SENDER, s)
     else if (snd lookup <? in_value incoming_tx + mining_fees)%float
          then (TX_INSUFFICIENT_FUNDS, s)
          else (TX_OK, accepted)) /\
  lookup = (appears sender (history s), net_received sender (history s)) /\
  TX_NO_SENDER = (-2)%Z /\ TX_INSUFFICIENT_FUNDS = (-1)%Z /\ TX_OK = 1%Z /\
  TXPOOL accepted
  = dict_set (str_nat (transaction_number s)) stored (TXPOOL s) /\
  dict_get (str_nat (transaction_number s)) (TXPOOL accepted) = Some stored /\
  transaction_number accepted = transaction_number s + 1 /\
  chain accepted = chain s /\
  sendr_addr stored = sender /\
  recvr_addr stored = receiver /\
  value stored = in_value incoming_tx /\
  mining_fee stored = mining_fees /\
  final_value stored = (in_value incoming_tx - mining_fees)%float.
Proof.
  cbv zeta. split; [|split].
  - unfold Chain.validate_add_transaction.
    rewrite get_balance_of_addr_lower.
    now destruct (Chain.get_balance_of_addr s (in_sendr_addr incoming_tx)).
  - apply get_balance_of_addr_spec.
  - unfold Chain.add_transaction; cbn [TXPOOL transaction_number chain].
    rewrite dict_get_set_same.
    unfold Chain.make_transaction, set_txhash; cbn.
    now rewrite !lower_idem.
Qed.

End Admission.

(* ===================================================================== *)
(** ** Upper-case queries *)
(* ===================================================================== *)

Section UpperCase.
Context {E : Extern}.

Lemma history_step_uninvolved (a : string) (p : bool)
    (acc : bool * dict TxView * nat) (tx : Transaction) :
  involves a tx = false -> Chain.history_step a p acc tx = acc.
Proof.
  unfold involves, Chain.history_step. intros H.
  apply orb_false_iff in H. destruct H as [-> ->].
  destruct acc as [[fl d] n]. reflexivity.
Qed.

Lemma history_scan_uninvolved (a : string) (p : bool) (h : list Transaction) :
  forall acc, existsb (involves a) h = false ->
              fold_left (Chain.history_step a p) h acc = acc.
Proof.
  induction h as [|tx h IH]; intros acc H; cbn [fold_left existsb] in *;
    [reflexivity|].
  apply orb_false_iff in H. destruct H as [H1 H2].
  rewrite history_step_uninvolved by exact H1. now apply IH.
Qed.

Lemma history_step_flag (a : string) (p : bool) (fl : bool) (d : dict TxView)
    (n : nat) (tx : Transaction) :
  fst (fst (Chain.history_step a p (fl, d, n) tx)) = fl || involves a tx.
Proof.
  unfold Chain.history_step, involves.
  destruct (String.eqb (sendr_addr tx) a), (String.eqb (recvr_addr tx) a);
    simpl; rewrite ?orb_true_r, ?orb_false_r; reflexivity.
Qed.

Lemma history_scan_flag (a : string) (p : bool) (h : list Transaction) :
  forall acc,
    fst (fst (fold_left (Chain.history_step a p) h acc))
    = fst (fst acc) || existsb (involves a) h.
Proof.
  induction h as [|tx h IH]; intros [[fl d] n]; cbn [fold_left existsb].
  - simpl. now rewrite orb_false_r.
  - rewrite IH.
    destruct (Chain.history_step a p (fl, d, n) tx) as [[fl' d'] n'] eqn:Hs.
    pose proof (history_step_flag a p fl d n tx) as Hf. rewrite Hs in Hf.
    simpl in *. rewrite Hf, orb_assoc. reflexivity.
Qed.

(** The flag of [get_transactions_of_addr]: the address as given is
    looked for. *)
Lemma get_transactions_of_addr_flag (s : Cryptocurrency) (address : string) :
  fst (Chain.get_transactions_of_addr s address) = appears address (history s).
Proof.
  unfold Chain.get_transactions_of_addr, appears, history, committed.
  rewrite fold_blocks_flat.
  match goal with
  | |- context [fold_left ?f ?l ?acc] =>
      match l with
      | dict_values _ =>
          pose proof (history_scan_flag address true l acc) as H;
          destruct (fold_left f l acc) as [[fl d] n]
      end
  end.
  simpl in *. rewrite H, history_scan_flag, existsb_app. reflexivity.
Qed.

Lemma get_transactions_of_addr_absent (s : Cryptocurrency) (address : string) :
  appears address (history s) = false ->
  Chain.get_transactions_of_addr s address = (false, []).
Proof.
  unfold Chain.get_transactions_of_addr, appears, history, committed.
  rewrite existsb_app. intros H. apply orb_false_iff in H. destruct H as [H1 H2].
  rewrite fold_blocks_flat.
  rewrite (history_scan_uninvolved address false _ _ H1).
  rewrite (history_scan_uninvolved address true _ _ H2).
  reflexivity.
Qed.

Lemma dict_set_values_Forall {V : Type} (P : V -> Prop) (k : string) (v : V)
    (d : dict V) :
  Forall P (dict_values d) -> P v -> Forall P (dict_values (dict_set k v d)).
Proof.
  unfold dict_values. induction d as [|[k' v'] r IH]; simpl; intros Hd Hv.
  - now constructor.
  - inversion Hd as [|x l Hx Hl]; subst.
    destruct (String.eqb k' k); simpl; constructor; auto.
Qed.

Lemma add_transaction_all_lowercased s a b v f t k :
  all_lowercased s -> all_lowercased (Chain.add_transaction s a b v f t k).
Proof.
  unfold all_lowercased, history, committed. intros H.
  apply Forall_app in H. destruct H as [Hc Hp].
  apply Forall_app. split; [exact Hc|].
  cbn [Chain.add_transaction TXPOOL].
  apply dict_set_values_Forall; [exact Hp|].
  simpl. now rewrite !lower_idem.
Qed.

(** Sealing moves the pool into the chain: the history is the same. *)
Lemma create_block_history s h n t s' b :
  Chain.create_block s h n t = Some (s', b) -> history s' = history s.
Proof.
  rewrite create_block_unfold.
  destruct (if negb (index s =? 0)%nat then _ else _) as [p|]; [|discriminate].
  destruct (Chain.Mu (transaction_number s)) as [mu|]; [|discriminate].
  intros H. injection H as <- <-.
  unfold history, committed. cbn.
  rewrite flat_map_app. cbn. now rewrite !app_nil_r.
Qed.

Lemma run_calls_all_lowercased cs :
  forallb stores_by_add_transaction cs = true ->
  forall s, all_lowercased s -> all_lowercased (run_calls s cs).
Proof.
  apply (run_calls_keep all_lowercased stores_by_add_transaction).
  - apply add_transaction_all_lowercased.
  - intros s k d H. exact H.
  - intros s h n t s' b H Hcb. unfold all_lowercased.
    now rewrite (create_block_history _ _ _ _ _ _ Hcb).
  - intros s r t Hok. discriminate Hok.
Qed.

Lemma init_genesis_all_lowercased files address amount t1 t2 s0 :
  Chain.init_genesis files address amount t1 t2 = Some s0 -> all_lowercased s0.
Proof.
  unfold Chain.init_genesis. intros H.
  destruct (Chain.create_block _ _ _ _) as [[s' b]|] eqn:Hc; [|discriminate].
  injection H as <-. unfold all_lowercased.
  rewrite (create_block_history _ _ _ _ _ _ Hc).
  apply add_transaction_all_lowercased. constructor.
Qed.

Lemma all_lowercased_upper_absent (s : Cryptocurrency) (address : string) :
  all_lowercased s -> has_upper address = true ->
  appears address (history s) = false.
Proof.
  unfold all_lowercased, appears. intros H Hup.
  induction H as [|tx h [Hs Hr] _ IH]; simpl; [reflexivity|].
  rewrite IH, orb_false_r. unfold involves.
  apply orb_false_iff. split; apply String.eqb_neq.
  - rewrite <- Hs. now apply has_upper_not_lower.
  - rewrite <- Hr. now apply has_upper_not_lower.
Qed.

(** C10, amended.  Every transaction that [add_transaction] stores has
    its sender and receiver lower-cased; [get_balance_of_addr] answers
    for the lower-cased form of its argument; [get_transactions_of_addr]
    looks for its argument as given.  Consequently, for an address with
    an upper-case letter whose lower-case form is in the history,
    [get_balance_of_addr] reports that the address exists, while
    [get_transactions_of_addr] returns (false, empty) exactly when the
    address as given is not the sender or receiver of a transaction of
    the history; and it is not on a ledger built by genesis creation
    and calls that store through [add_transaction]. *)
Theorem upper_case_query_mismatch :
  (forall s a b v f t k,
      exists tx,
        dict_get (str_nat (transaction_number s))
                 (TXPOOL (Chain.add_transaction s a b v f t k)) = Some tx /\
        sendr_addr tx = lower a /\ recvr_addr tx = lower b) /\
  (forall s address,
      Chain.get_balance_of_addr s address
      = Chain.get_balance_of_addr s (lower address)) /\
  (forall s address,
      fst (Chain.get_transactions_of_addr s address)
      = appears address (history s)) /\
  (forall s address,
      has_upper address = true ->
      appears (lower address) (history s) = true ->
      fst (Chain.get_balance_of_addr s address) = true /\
      (Chain.get_transactions_of_addr s address = (false, []) <->
       appears address (history s) = false)) /\
  (forall cs s address,
      built_from_genesis cs s ->
      forallb stores_by_add_transaction cs = true ->
      has_upper address = true ->
      appears (lower address) (history s) = true ->
      fst (Chain.get_balance_of_addr s address) = true /\
      Chain.get_transactions_of_addr s address = (false, [])).
Proof.
  split; [|split; [|split; [|split]]].
  - intros s a b v f t k. eexists. split; [|split].
    + unfold Chain.add_transaction; cbn [TXPOOL]. apply dict_get_set_same.
    + reflexivity.
    + reflexivity.
  - intros s address. symmetry. apply get_balance_of_addr_lower.
  - intros s address. apply get_transactions_of_addr_flag.
  - intros s address _ Hlow. split; [|split].
    + rewrite get_balance_of_addr_spec. simpl. exact Hlow.
    + intros Hq. rewrite <- get_transactions_of_addr_flag, Hq. reflexivity.
    + apply get_transactions_of_addr_absent.
  - intros cs s address Hb Hcs Hup Hlow. split.
    + rewrite get_balance_of_addr_spec. simpl. exact Hlow.
    + destruct Hb as (files & a0 & amount & t1 & t2 & s0 & Hg & ->).
      apply get_transactions_of_addr_absent.
      apply all_lowercased_upper_absent; [|assumption].
      apply run_calls_all_lowercased; [assumption|].
      exact (init_genesis_all_lowercased _ _ _ _ _ _ Hg).
Qed.

End UpperCase.

Lemma upper_case_query_mismatch_witness :
  fst (Chain.get_balance_of_addr demo_genesis "0xAB") = true /\
  Chain.get_transactions_of_addr demo_genesis "0xAB" = (false, []).
Proof.
  apply (proj2 (proj2 (proj2 (proj2 (upper_case_query_mismatch (E := demo_extern)))))
           [] demo_genesis "0xAB").
  - exists [], "0xab", 1000%float, "t0", "t1", demo_genesis.
    split; reflexivity.
  - reflexivity.
  - reflexivity.
  - reflexivity.
Defined.

(** C10 as stated fails on a ledger sealed through the route
    [mine_block].  Genesis pays the address "IceCereum-MiningPayment"
    (stored lower-cased), then the empty pool is mined by an honest
    mining node, whose payment transaction has the sender
    "IceCereum-MiningPayment" as written.  This address has upper-case
    letters and its lower-case form is in the history;
    [get_balance_of_addr] reports it as existing, with the 1000 coins
    of genesis, and [get_transactions_of_addr] finds it too: the record
    of the mining payment, not (false, empty). *)
Lemma upper_case_query_found_counterexample :
  let mining_resp := demo_mining_resp (mkRandom 0.5 (fun _ => 0)) 8 in
  Chain.init_genesis (E := demo_extern) [] "IceCereum-MiningPayment" 1000
                     "t0" "t1" = Some demo_named_genesis /\
  (exists POST_data,
     Chain.get_latest_block_metaparams (E := demo_extern) demo_named_genesis
     = Some POST_data /\
     MinerAPI.mine_hash (E := demo_extern) POST_data
       (mkRandom 0.5 (fun _ => 0)) (fun c => "t" ++ str_nat c)%string 8
     = Returns (mining_resp POST_data)) /\
  ChainAPI.mine_block (E := demo_extern) demo_named_genesis mining_resp "t2"
  = (BlockCreated, demo_named_mined) /\
  built_from_genesis (E := demo_extern) [CallMineBlock mining_resp "t2"]
                     demo_named_mined /\
  has_upper "IceCereum-MiningPayment" = true /\
  appears (lower "IceCereum-MiningPayment") (history demo_named_mined) = true /\
  Chain.get_balance_of_addr demo_named_mined "IceCereum-MiningPayment"
  = (true, 1000%float) /\
  (exists record,
     Chain.get_transactions_of_addr demo_named_mined "IceCereum-MiningPayment"
     = (true, [("0", record)]) /\
     tv_type record = "send" /\
     tv_in_txpool record = false /\
     sendr_addr (tv_tx record) = "IceCereum-MiningPayment" /\
     recvr_addr (tv_tx record) = MINING_ADDRESS) /\
  Chain.get_transactions_of_addr demo_named_mined "IceCereum-MiningPayment"
  <> (false, []).
Proof.
  cbv zeta.
  split; [reflexivity|].
  split; [eexists; split; [reflexivity|vm_compute; reflexivity]|].
  split; [vm_compute; reflexivity|].
  split.
  { exists [], "IceCereum-MiningPayment", 1000%float, "t0", "t1",
      demo_named_genesis. split; reflexivity. }
  split; [reflexivity|]. split; [vm_compute; reflexivity|].
  split; [vm_compute; reflexivity|].
  split.
  { eexists. split; [vm_compute; reflexivity|]. repeat split. }
  vm_compute. discriminate.
Qed.

(* ===================================================================== *)
(** ** Metaparameters *)
(* ===================================================================== *)

Section Metaparameters.
Context {E : Extern}.

(** [set_metaparams] follows the formula, with [R] the counter
    [transaction_number]. *)
Lemma set_metaparams_formula (s : Cryptocurrency) :
  let R := transaction_number s in
  let x := (float_of_int (Z.of_nat R - 10) / float_of_int 10)%float in
  match Chain.set_metaparams s with
  | Some (s', (mu, tau)) =>
      (if (R <=? 10)%nat then mu = 1%float else exp x = Some mu) /\
      tau = (1.5 * mu)%float /\
      _mining_fees s' = mu /\
      _reward_for_transaction s' = tau
  | None => 10 < R /\ exp x = None
  end.
Proof.
  cbv zeta. unfold Chain.set_metaparams, Chain.Mu.
  destruct (Nat.leb_spec (transaction_number s) 10) as [Hle|Hgt].
  - repeat split.
  - destruct (exp _) as [mu|]; repeat split; assumption.
Qed.

Lemma Mu_10 : Chain.Mu 10 = Some 1%float.
Proof. reflexivity. Qed.

Lemma Mu_11 : Chain.Mu 11 = exp 0.1.
Proof. reflexivity. Qed.

Lemma Mu_13 : Chain.Mu 13 = exp 0.3.
Proof. reflexivity. Qed.

(** A seal sets the fee from the counter of the ledger it seals. *)
Lemma create_block_fee s h n t s' b :
  Chain.create_block s h n t = Some (s', b) ->
  Chain.Mu (transaction_number s) = Some (_mining_fees s') /\
  _reward_for_transaction s' = (1.5 * _mining_fees s')%float /\
  transactions b = TXPOOL s.
Proof.
  rewrite create_block_unfold.
  destruct (if negb (index s =? 0)%nat then _ else _) as [p|]; [|discriminate].
  destruct (Chain.Mu (transaction_number s)) as [mu|]; [|discriminate].
  intros H. injection H as <- <-. repeat split.
Qed.

Lemma dict_keys_app {V : Type} (d d' : dict V) :
  dict_keys (d ++ d') = dict_keys d ++ dict_keys d'.
Proof. unfold dict_keys. apply map_app. Qed.

(** On a pool keyed in order, assigning to [str(len(pool))] appends. *)
Lemma dict_set_next (pool : dict Transaction) (tx : Transaction) :
  keyed_in_order pool ->
  dict_set (str_nat (length pool)) tx pool = pool ++ [(str_nat (length pool), tx)].
Proof.
  intros Hk. apply dict_set_fresh. rewrite Hk. now apply key_range_fresh.
Qed.

Lemma keyed_in_order_snoc (pool : dict Transaction) (tx : Transaction) :
  keyed_in_order pool ->
  keyed_in_order (pool ++ [(str_nat (length pool), tx)]).
Proof.
  unfold keyed_in_order. intros Hk.
  rewrite dict_keys_app, length_app, Hk. simpl.
  rewrite Nat.add_1_r, key_range_S. reflexivity.
Qed.

Lemma add_transaction_counter_inv s a b v f t k :
  counter_inv s -> counter_inv (Chain.add_transaction s a b v f t k).
Proof.
  intros [Hn Hk]. unfold counter_inv, Chain.add_transaction.
  cbn [transaction_number TXPOOL].
  rewrite Hn, dict_set_next by exact Hk.
  split; [rewrite length_app; reflexivity|now apply keyed_in_order_snoc].
Qed.

Lemma create_block_counter_inv s h n t s' b :
  Chain.create_block s h n t = Some (s', b) -> counter_inv s'.
Proof.
  rewrite create_block_unfold.
  destruct (if negb (index s =? 0)%nat then _ else _) as [p|]; [|discriminate].
  destruct (Chain.Mu (transaction_number s)) as [mu|]; [|discriminate].
  intros H. injection H as <- <-. split; reflexivity.
Qed.

Lemma built_by_returning_seals_built cs s :
  built_by_returning_seals cs s -> built_from_genesis cs s.
Proof.
  intros (files & address & amount & t1 & t2 & s0 & Hg & _ & ->).
  now exists files, address, amount, t1, t2, s0.
Qed.

(** What the route [mine_block] does when it answers "BLOCK CREATED". *)
Lemma mine_block_created s r t s' :
  ChainAPI.mine_block s r t = (BlockCreated, s') ->
  exists POST_data b,
    Chain.get_latest_block_metaparams s = Some POST_data /\
    Chain.create_block (ChainAPI.set_TXPOOL s (resp_transactions (r POST_data)))
      (hash_string (r POST_data)) (resp_nonce (r POST_data)) t = Some (s', b).
Proof.
  unfold ChainAPI.mine_block, ChainAPI.create_block.
  destruct (Chain.get_latest_block_metaparams s) as [m|]; [|discriminate].
  destruct (Chain.create_block _ _ _ t) as [[s1 b]|] eqn:Hcb; [|discriminate].
  intros H. injection H as <-. now exists m, b.
Qed.

(** Both invariants hold on every ledger built from genesis by calls
    whose seals all returned.  (A [mine_block] whose seal raises leaves
    the pool of the mining node in [TXPOOL] and the counter as it
    was.) *)
Lemma built_invariants cs s :
  built_by_returning_seals cs s -> chain_inv s /\ counter_inv s.
Proof.
  intros (files & address & amount & t1 & t2 & s0 & Hg & Hret & ->).
  apply (run_calls_keep_returning (fun s => chain_inv s /\ counter_inv s));
    [| | |exact Hret|].
  - intros s a b v f t k [H1 H2]. split.
    + now apply add_transaction_chain_inv.
    + now apply add_transaction_counter_inv.
  - intros s h n t s' b [H1 H2] Hcb. split.
    + exact (create_block_chain_inv _ _ _ _ _ _ H1 Hcb).
    + exact (create_block_counter_inv _ _ _ _ _ _ Hcb).
  - intros s r t s' [H1 H2] Hm.
    destruct (mine_block_created _ _ _ _ Hm) as (m & b & _ & Hcb). split.
    + refine (create_block_chain_inv _ _ _ _ _ _ _ Hcb). exact H1.
    + exact (create_block_counter_inv _ _ _ _ _ _ Hcb).
  - split; [exact (init_genesis_chain_inv _ _ _ _ _ _ Hg)|].
    unfold Chain.init_genesis in Hg.
    destruct (Chain.create_block _ _ _ _) as [[s' b]|] eqn:Hcb; [|discriminate].
    injection Hg as <-. exact (create_block_counter_inv _ _ _ _ _ _ Hcb).
Qed.

(** A seal by [create_block] on such a ledger: [R] is the number of
    transactions of the block. *)
Lemma create_block_fee_built cs s h n t s' b :
  built_by_returning_seals cs s ->
  Chain.create_block s h n t = Some (s', b) ->
  Chain.Mu (length (transactions b)) = Some (_mining_fees s') /\
  _reward_for_transaction s' = (1.5 * _mining_fees s')%float.
Proof.
  intros Hb Hcb. destruct (built_invariants _ _ Hb) as [_ [Hn _]].
  destruct (create_block_fee _ _ _ _ _ _ Hcb) as (Hf & Hr & Ht).
  rewrite Ht, <- Hn. split; assumption.
Qed.

Lemma create_block_chain s h n t s' b :
  Chain.create_block s h n t = Some (s', b) -> chain s' = chain s ++ [b].
Proof.
  rewrite create_block_unfold.
  destruct (if negb (index s =? 0)%nat then _ else _) as [p|]; [|discriminate].
  destruct (Chain.Mu (transaction_number s)) as [mu|]; [|discriminate].
  intros H. injection H as <- <-. reflexivity.
Qed.

(** A [create_block] that raises leaves the chain as it was. *)
Lemma create_block_raised_chain s h n t :
  chain (Chain.create_block_raised s h n t) = chain s.
Proof.
  apply (create_block_raised_keeps (fun s' => chain s' = chain s));
    [|reflexivity].
  intros s0 k d H. exact H.
Qed.

(** On a ledger that satisfies the invariant and has a block, the route
    [mine_block] seals whatever the mining node answers, unless [exp]
    overflows in [set_metaparams]. *)
Lemma mine_block_seals s r t POST_data :
  chain_inv s ->
  Chain.Mu (transaction_number s) <> None ->
  Chain.get_latest_block_metaparams s = Some POST_data ->
  exists s' b,
    Chain.create_block (ChainAPI.set_TXPOOL s (resp_transactions (r POST_data)))
      (hash_string (r POST_data)) (resp_nonce (r POST_data)) t = Some (s', b) /\
    ChainAPI.mine_block s r t = (BlockCreated, s').
Proof.
  intros Hc Hmu Hm. unfold ChainAPI.mine_block, ChainAPI.create_block. rewrite Hm.
  match goal with
  | |- context [Chain.create_block ?s1 ?h ?n ?t] =>
      destruct (create_block_returns s1 h n t Hc Hmu) as (s' & b & Hcb)
  end.
  exists s', b. split; [exact Hcb|]. now rewrite Hcb.
Qed.

(** A ledger built from genesis has a block. *)
Lemma built_chain_nonempty cs s : built_from_genesis cs s -> chain s <> [].
Proof.
  intros (files & address & amount & t1 & t2 & s0 & Hg & ->).
  apply (run_calls_keep (fun s => chain s <> []) (fun _ => true)).
  - intros s a b v f t k H. exact H.
  - intros s k d H. exact H.
  - intros s h n t s' b H Hcb.
    rewrite (create_block_chain _ _ _ _ _ _ Hcb). now destruct (chain s).
  - intros s r t _ H. unfold ChainAPI.mine_block.
    destruct (Chain.get_latest_block_metaparams s) as [m|]; [|exact H].
    unfold ChainAPI.create_block.
    destruct (Chain.create_block _ _ _ t) as [[s' b]|] eqn:Hcb; simpl.
    + rewrite (create_block_chain _ _ _ _ _ _ Hcb). simpl. now destruct (chain s).
    + rewrite create_block_raised_chain. exact H.
  - apply forallb_true.
  - unfold Chain.init_genesis in Hg.
    destruct (Chain.create_block _ _ _ _) as [[s' b]|] eqn:Hcb; [|discriminate].
    injection Hg as <-.
    rewrite (create_block_chain _ _ _ _ _ _ Hcb). simpl. discriminate.
Qed.

(** A seal by the route [mine_block] on a ledger built by calls whose
    seals all returned: the block holds the pool the mining node
    answered, and [R] is the size of the pool before the mining node
    added to it. *)
Lemma mine_block_fee_built cs s r t :
  built_by_returning_seals cs s ->
  Chain.Mu (length (TXPOOL s)) <> None ->
  exists POST_data b,
    Chain.get_latest_block_metaparams s = Some POST_data /\
    Chain.last_block (snd (ChainAPI.mine_block s r t)) = Some b /\
    transactions b = resp_transactions (r POST_data) /\
    Chain.Mu (length (TXPOOL s))
    = Some (_mining_fees (snd (ChainAPI.mine_block s r t))).
Proof.
  intros Hb Hmu. destruct (built_invariants _ _ Hb) as [Hc [Hn _]].
  apply built_by_returning_seals_built in Hb.
  destruct (last_block_nonempty s (built_chain_nonempty _ _ Hb)) as [bl Hbl].
  assert (Hm : exists m, Chain.get_latest_block_metaparams s = Some m).
  { unfold Chain.get_latest_block_metaparams. rewrite Hbl. eauto. }
  destruct Hm as [m Hm]. rewrite <- Hn in Hmu.
  destruct (mine_block_seals s r t m Hc Hmu Hm) as (s' & b & Hcb & Hmb).
  exists m, b. rewrite Hmb. simpl.
  destruct (create_block_fee _ _ _ _ _ _ Hcb) as (Hf & _ & Ht).
  split; [exact Hm|]. split; [|split].
  - unfold Chain.last_block.
    rewrite (create_block_chain _ _ _ _ _ _ Hcb), rev_app_distr. reflexivity.
  - exact Ht.
  - rewrite <- Hn. exact Hf.
Qed.

End Metaparameters.

(** C3, at the seal of the route [mine_block].  After genesis and ten
    admissions the pool holds 10 transactions and the counter is 10;
    the mining node answers with 13 transactions (two rewards and its
    payment), which [mine_block] seals; [set_metaparams] then takes
    R = 10 and sets the fee to 1 and the reward to 1.5, where the
    number of transactions of the sealed pool, 13, asks for the fee
    exp(0.3). *)
Theorem mine_block_fee_from_stale_counter :
  transaction_number demo_ten = 10 /\
  length (TXPOOL demo_ten) = 10 /\
  (exists b, Chain.last_block demo_ten_mined = Some b /\
             length (transactions b) = 13) /\
  _mining_fees demo_ten_mined = 1%float /\
  _reward_for_transaction demo_ten_mined = 1.5%float /\
  (forall E : Extern, Chain.Mu 10 = Some 1%float /\ Chain.Mu 13 = exp 0.3).
Proof.
  split; [reflexivity|]. split; [reflexivity|].
  split; [eexists; split; [vm_compute; reflexivity|reflexivity]|].
  split; [reflexivity|]. split; [reflexivity|].
  intros E. split; reflexivity.
Qed.

(* ===================================================================== *)
(** ** Loading the chain *)
(* ===================================================================== *)

Section Loading.

Lemma load_chain_chain (s : Cryptocurrency) (listing : list BlockDict)
    (t : string) :
  chain (Chain.load_chain s listing t)
  = chain s ++ map (fun d => Chain.block_of_dict d t) listing.
Proof.
  unfold Chain.load_chain. cbn [chain].
  generalize (chain s) as l.
  induction listing as [|d listing IH]; intros l; simpl.
  - now rewrite app_nil_r.
  - rewrite IH, <- app_assoc. reflexivity.
Qed.

(** [load_chain] keeps the order of the directory listing: the block at
    position [i] has the index of the [i]-th file listed. *)
Lemma load_chain_listing_order (files : dict BlockDict)
    (listing : list BlockDict) (t : string) :
  map block_index (chain (ChainAPI.load_chain files listing t))
  = map bd_block_index listing.
Proof.
  unfold ChainAPI.load_chain. rewrite load_chain_chain. simpl.
  rewrite map_map. reflexivity.
Qed.

End Loading.

(** C9 on the two block files that genesis and one seal wrote, listed
    "1.json" before "0.json": [load_chain] appends in this order, so the
    block at position 0 has [block_index] 1 and the block at position 1
    has [block_index] 0.  The next seal then takes the digest of the
    last position, the block of index 0, as [previous_block_hash] of
    the block of index 2. *)
Theorem load_chain_follows_listing :
  let loaded := ChainAPI.load_chain (blocks_path demo_mined) demo_listing "t3" in
  dict_keys (blocks_path demo_mined) = ["0.json"; "1.json"] /\
  Permutation demo_listing (dict_values (blocks_path demo_mined)) /\
  map block_index (chain loaded) = [1; 0] /\
  (exists b, nth_error (chain loaded) 0 = Some b /\ block_index b = 1) /\
  forall (E : Extern) (mined_block_hash nonce time_utc : string),
  exists s' b b0,
    Chain.create_block loaded mined_block_hash nonce time_utc = Some (s', b) /\
    block_index b = 2 /\
    nth_error (chain loaded) 1 = Some b0 /\
    block_index b0 = 0 /\
    previous_block_hash b = PrevStr (block_hash b0).
Proof.
  cbv zeta. split; [reflexivity|]. split.
  - unfold demo_listing. apply Permutation_sym, Permutation_rev.
  - split; [reflexivity|]. split.
    + eexists. split; reflexivity.
    + intros E h n t. eexists. eexists. eexists.
      split; [reflexivity|]. repeat split.
Qed.

(* ===================================================================== *)
(** ** The transfer route *)
(* ===================================================================== *)

Section Transfer.
Context {E : Extern}.

Lemma authentication_failed_validation (code : Z) :
  authentication_failed (ChainAPI.validation_response code) = false.
Proof.
  unfold ChainAPI.validation_response.
  destruct (code =? -1)%Z; [reflexivity|].
  destruct (code =? -2)%Z; [reflexivity|].
  destruct (code =? 1)%Z; reflexivity.
Qed.

(** [validate_add_transaction] returns -2, -1 or 1, so the route
    answers 7, 6 or the success message after it. *)
Lemma validation_response_cases s tx f t :
  let r := ChainAPI.validation_response
             (fst (Chain.validate_add_transaction s tx f t)) in
  r = ErrorDesc 7 "" \/ r = ErrorDesc 6 "" \/ r = TransactionAdded.
Proof.
  cbv zeta. unfold Chain.validate_add_transaction.
  destruct (Chain.get_balance_of_addr s _) as [fl bal].
  destruct (negb fl); [now left|].
  destruct (_ <? _)%float; [right; now left|right; now right].
Qed.

(** The requests that reach the signature check: the ledger has a
    block, the session has both keys, the body has all six keys and the
    two addresses are well formed. *)
Lemma post_reaches_check Crypto fees ident token sender receiver v otn script sig t :
  ChainAPI.current_mining_fees Crypto = Some fees ->
  isAddress sender = true ->
  isAddress receiver = true ->
  ChainAPI.add_transaction_POST Crypto (mkSession (Some ident) (Some token))
    (mkRequestBody (Some sender) (Some receiver) (Some v) (Some otn)
                   (Some script) (Some sig)) t
  = match recover_message (sender ++ receiver ++ str_float v ++ token) sig with
    | ValidationError => (ErrorDesc 4 "", Crypto)
    | OtherException _ => (InternalServerError, Crypto)
    | Signer a =>
        if negb (String.eqb sender (lower (rstrip " " (lstrip " " a))))
        then (ErrorDesc 5 "", Crypto)
        else
          let r := Chain.validate_add_transaction Crypto
                     (mkIncomingTx sender receiver v script) fees t in
          (ChainAPI.validation_response (fst r), snd r)
    end.
Proof.
  intros Hf Hs Hr. unfold ChainAPI.add_transaction_POST.
  rewrite Hf. cbn. rewrite Hs, Hr. cbn.
  unfold ChainAPI.message_to_sign, ChainAPI.normalize_acct.
  destruct (recover_message _ sig) as [a| |]; [|reflexivity|reflexivity].
  destruct (negb (String.eqb sender _)); [reflexivity|].
  now destruct (Chain.validate_add_transaction Crypto _ fees t).
Qed.

(** What the signature check answers, for each outcome of the recovery
    over the message sender, receiver, value, token (concatenated):
    answer 4 on [ValidationError]; answer 5 when the recovered address,
    stripped of blanks and lower-cased, is not the claimed sender; the
    request goes on to [validate_add_transaction] with this sender when
    it is; the request ends in a server error, the ledger untouched,
    when the recovery raises any other exception. *)
Lemma signature_check_outcomes
    Crypto fees ident token sender receiver v otn script sig t :
  ChainAPI.current_mining_fees Crypto = Some fees ->
  isAddress sender = true ->
  isAddress receiver = true ->
  let session := mkSession (Some ident) (Some token) in
  let request_body :=
    mkRequestBody (Some sender) (Some receiver) (Some v) (Some otn)
                  (Some script) (Some sig) in
  let recovered :=
    recover_message (sender ++ receiver ++ str_float v ++ token) sig in
  let answer := ChainAPI.add_transaction_POST Crypto session request_body t in
  (authentication_failed (fst answer) = true <->
   (recovered = ValidationError \/
    exists a, recovered = Signer a /\
              lower (rstrip " " (lstrip " " a)) <> sender)) /\
  (recovered = ValidationError -> answer = (ErrorDesc 4 "", Crypto)) /\
  (forall a, recovered = Signer a ->
             lower (rstrip " " (lstrip " " a)) <> sender ->
             answer = (ErrorDesc 5 "", Crypto)) /\
  (forall a, recovered = Signer a ->
             lower (rstrip " " (lstrip " " a)) = sender ->
             let r := Chain.validate_add_transaction Crypto
                        (mkIncomingTx sender receiver v script) fees t in
             answer = (ChainAPI.validation_response (fst r), snd r)) /\
  (forall class, recovered = OtherException class ->
                 answer = (InternalServerError, Crypto)).
Proof.
  intros Hf Hs Hr session request_body recovered answer.
  assert (Hanswer :
    answer = match recovered with
             | ValidationError => (ErrorDesc 4 "", Crypto)
             | OtherException _ => (InternalServerError, Crypto)
             | Signer a =>
                 if negb (String.eqb sender (lower (rstrip " " (lstrip " " a))))
                 then (ErrorDesc 5 "", Crypto)
                 else
                   let r := Chain.validate_add_transaction Crypto
                              (mkIncomingTx sender receiver v script) fees t in
                   (ChainAPI.validation_response (fst r), snd r)
             end).
  { unfold answer, session, request_body.
    now rewrite (post_reaches_check _ _ _ _ _ _ _ _ _ _ _ Hf Hs Hr). }
  clearbody answer recovered. subst answer.
  destruct recovered as [a| |class].
  - destruct (String.eqb_spec sender (lower (rstrip " " (lstrip " " a))))
      as [Heq|Hne]; simpl.
    + repeat split.
      * rewrite authentication_failed_validation. discriminate.
      * intros [Hv|[a' [Ha' Hne]]]; [discriminate|].
        injection Ha' as <-. now symmetry in Heq.
      * discriminate.
      * intros a' Ha' Hne. injection Ha' as <-. now symmetry in Heq.
      * discriminate.
    + repeat split.
      * intros _. right. exists a. split; [reflexivity|]. congruence.
      * discriminate.
      * intros a' Ha' Heq. injection Ha' as <-. congruence.
      * discriminate.
  - simpl. repeat split.
    + intros _. now left.
    + intros a Ha. discriminate.
    + intros a Ha. discriminate.
    + discriminate.
  - simpl. repeat split.
    + discriminate.
    + intros [Hv|[a [Ha _]]]; discriminate.
    + discriminate.
    + intros a Ha. discriminate.
    + intros a Ha. discriminate.
Qed.

(** C5 fails on the code.  The handler catches [ValidationError] only.
    When the recovery over the message sender, receiver, value, token
    raises an exception of another class, the recovery has not failed
    with the validation error and there is no recovered address to
    differ from the claimed sender, so by the claim the sender is
    authenticated; the code ends the request in a server error: the
    answer is neither of the two authentication failures (4, 5), nor
    what [validate_add_transaction] gives for this sender, and the
    ledger is as before. *)
Theorem recovery_exception_not_caught
    Crypto fees ident token sender receiver v otn script sig t class :
  ChainAPI.current_mining_fees Crypto = Some fees ->
  isAddress sender = true ->
  isAddress receiver = true ->
  recover_message (sender ++ receiver ++ str_float v ++ token) sig
  = OtherException class ->
  let answer :=
    ChainAPI.add_transaction_POST Crypto (mkSession (Some ident) (Some token))
      (mkRequestBody (Some sender) (Some receiver) (Some v) (Some otn)
                     (Some script) (Some sig)) t in
  answer = (InternalServerError, Crypto) /\
  authentication_failed (fst answer) = false /\
  fst answer
  <> ChainAPI.validation_response
       (fst (Chain.validate_add_transaction Crypto
               (mkIncomingTx sender receiver v script) fees t)).
Proof.
  intros Hf Hs Hr Hrec answer. unfold answer.
  rewrite (post_reaches_check _ _ _ _ _ _ _ _ _ _ _ Hf Hs Hr), Hrec.
  split; [reflexivity|]. split; [reflexivity|]. simpl.
  destruct (validation_response_cases Crypto
              (mkIncomingTx sender receiver v script) fees t) as [H|[H|H]];
    cbv zeta in H; rewrite H; discriminate.
Qed.

Lemma dict_set_In {V : Type} (k : string) (v : V) (d : dict V) :
  In v (dict_values (dict_set k v d)).
Proof.
  unfold dict_values. induction d as [|[k' v'] r IH]; simpl; [now left|].
  destruct (String.eqb k' k); simpl; [now left|now right].
Qed.

(** The sender of a stored transaction is in the history. *)
Lemma add_transaction_sender_appears s a b v f t k :
  appears (lower a) (history (Chain.add_transaction s a b v f t k)) = true.
Proof.
  unfold appears, history. rewrite existsb_app. apply orb_true_iff. right.
  apply existsb_exists. eexists. split.
  - cbn [Chain.add_transaction TXPOOL]. apply dict_set_In.
  - unfold involves. simpl. now rewrite String.eqb_refl.
Qed.

Lemma add_transaction_mining_fees s a b v f t k :
  ChainAPI.current_mining_fees (Chain.add_transaction s a b v f t k)
  = ChainAPI.current_mining_fees s.
Proof.
  unfold ChainAPI.current_mining_fees, Chain.get_latest_block_metaparams,
    Chain.last_block.
  cbn [Chain.add_transaction chain]. now destruct (rev (chain s)).
Qed.

(** When [validate_add_transaction] answers 1 the new ledger is the one
    [add_transaction] builds. *)
Lemma validate_accepted s tx f t code s' :
  Chain.validate_add_transaction s tx f t = (code, s') ->
  ChainAPI.validation_response code = TransactionAdded ->
  s' = Chain.add_transaction s (lower (in_sendr_addr tx))
         (lower (in_recvr_addr tx)) (in_value tx) f t (Some (in_skscript tx)).
Proof.
  unfold Chain.validate_add_transaction.
  destruct (Chain.get_balance_of_addr s _) as [fl bal].
  destruct (negb fl).
  - intros H. injection H as <- <-. discriminate.
  - destruct (_ <? _)%float; intros H; injection H as <- <-;
      [discriminate|reflexivity].
Qed.

(** C4 fails on the code: the POST branch of the transfer route only
    reads the session, so the token is still in it after an admission.
    Whenever a request was admitted with a session and the sender can
    still pay value + fee afterwards, the same request with the same
    session (the same token, the same signature) is admitted again. *)
Theorem one_time_nonce_admits_twice
    Crypto session request_body t1 t2 Crypto1 sender v fees :
  ChainAPI.add_transaction_POST Crypto session request_body t1
  = (TransactionAdded, Crypto1) ->
  rq_sendr_addr request_body = Some sender ->
  rq_value request_body = Some v ->
  ChainAPI.current_mining_fees Crypto = Some fees ->
  (net_received (lower sender) (history Crypto1) <? v + fees)%float = false ->
  exists Crypto2,
    ChainAPI.add_transaction_POST Crypto1 session request_body t2
    = (TransactionAdded, Crypto2) /\
    transaction_number Crypto2 = transaction_number Crypto + 2.
Proof.
  intros H1 Hsender Hv Hfees Hfunds.
  destruct session as [[ident|] [token|]];
    try (unfold ChainAPI.add_transaction_POST in H1; rewrite Hfees in H1;
         discriminate H1).
  destruct request_body as [[a|] [b|] [x|] [otn|] [script|] [sig|]];
    try (unfold ChainAPI.add_transaction_POST in H1; rewrite Hfees in H1;
         discriminate H1).
  simpl in Hsender, Hv. injection Hsender as ->. injection Hv as ->.
  destruct (isAddress sender) eqn:Hs;
    [|unfold ChainAPI.add_transaction_POST in H1; rewrite Hfees in H1;
      cbn in H1; rewrite Hs in H1; discriminate H1].
  destruct (isAddress b) eqn:Hr;
    [|unfold ChainAPI.add_transaction_POST in H1; rewrite Hfees in H1;
      cbn in H1; rewrite Hs, Hr in H1; discriminate H1].
  rewrite (post_reaches_check _ _ _ _ _ _ _ _ _ _ _ Hfees Hs Hr) in H1.
  destruct (recover_message _ sig) as [acct| |] eqn:Hrec;
    [|discriminate H1|discriminate H1].
  destruct (negb (String.eqb sender _)) eqn:Hacct; [discriminate H1|].
  destruct (Chain.validate_add_transaction Crypto _ fees t1) as [code s1] eqn:Hval.
  simpl in H1. injection H1 as Hcode ->.
  apply (validate_accepted _ _ _ _ _ _ Hval) in Hcode. simpl in Hcode.
  assert (Hfees1 : ChainAPI.current_mining_fees Crypto1 = Some fees).
  { rewrite Hcode, add_transaction_mining_fees. exact Hfees. }
  rewrite (post_reaches_check _ _ _ _ _ _ _ _ _ _ _ Hfees1 Hs Hr).
  rewrite Hrec, Hacct.
  unfold Chain.validate_add_transaction. cbn [in_sendr_addr in_recvr_addr in_value in_skscript].
  rewrite get_balance_of_addr_lower, get_balance_of_addr_spec.
  assert (Happ : appears (lower sender) (history Crypto1) = true).
  { pose proof (add_transaction_sender_appears Crypto (lower sender) (lower b)
                  v fees t1 (Some script)) as Ha.
    rewrite lower_idem, <- Hcode in Ha. exact Ha. }
  rewrite Happ, Hfunds. cbn.
  eexists. split; [reflexivity|].
  rewrite Hcode. simpl. lia.
Qed.

End Transfer.

Lemma recovery_exception_not_caught_witness :
  ChainAPI.current_mining_fees (E := demo_extern) demo_genesis = Some 1%float /\
  recover_message (Extern := demo_extern)
    ("0xab" ++ "0xcd" ++ str_float (Extern := demo_extern) 100 ++ "5f2c")
    zero_signature
  = OtherException "BadSignature" /\
  ChainAPI.add_transaction_POST (E := demo_extern) demo_genesis demo_session
    (mkRequestBody (Some "0xab") (Some "0xcd") (Some 100%float) (Some "5f2c")
                   (Some "script") (Some zero_signature)) "t5"
  = (InternalServerError, demo_genesis).
Proof.
  assert (Hf : ChainAPI.current_mining_fees (E := demo_extern) demo_genesis
               = Some 1%float) by reflexivity.
  assert (Hrec : recover_message (Extern := demo_extern)
                   ("0xab" ++ "0xcd" ++ str_float (Extern := demo_extern) 100
                    ++ "5f2c") zero_signature
                 = OtherException "BadSignature") by reflexivity.
  split; [exact Hf|]. split; [exact Hrec|].
  exact (proj1 (recovery_exception_not_caught (E := demo_extern)
                  demo_genesis 1%float "0xab" "5f2c" "0xab" "0xcd" 100%float
                  "5f2c" "script" zero_signature "t5" "BadSignature"
                  Hf eq_refl eq_refl Hrec)).
Defined.

Lemma one_time_nonce_admits_twice_witness :
  ChainAPI.add_transaction_GET (E := demo_extern) demo_genesis
    (mkSession None None) (Some "0xab") "5f2c"
  = (NonceIssued 1 "5f2c", demo_session) /\
  exists Crypto1 Crypto2,
    ChainAPI.add_transaction_POST (E := demo_extern) demo_genesis demo_session
      demo_request "t5" = (TransactionAdded, Crypto1) /\
    ChainAPI.add_transaction_POST (E := demo_extern) Crypto1 demo_session
      demo_request "t6" = (TransactionAdded, Crypto2) /\
    transaction_number Crypto2 = transaction_number demo_genesis + 2.
Proof.
  split; [reflexivity|].
  eexists.
  destruct (one_time_nonce_admits_twice (E := demo_extern)
              demo_genesis demo_session demo_request "t5" "t6" _ "0xab"
              100%float 1%float eq_refl eq_refl eq_refl eq_refl eq_refl)
    as [Crypto2 [H2 Hn]].
  exists Crypto2. split; [reflexivity|]. split; [exact H2|exact Hn].
Defined.

(* ===================================================================== *)
(** ** The miner: proof of work *)
(* ===================================================================== *)

Section ProofOfWork.
Context {E : Extern}.








End ProofOfWork.


(* ===================================================================== *)
(** ** The miner: rewards and payment *)
(* ===================================================================== *)

Section Rewards.
Context {E : Extern}.

Lemma keyed_lookup_from (d : dict Transaction) :
  forall a n i,
    dict_keys d = map str_nat (seq a n) -> i < n ->
    dict_get (str_nat (a + i)) d = nth_error (dict_values d) i.
Proof.
  induction d as [|[k v] r IH]; intros a n i Hk Hi.
  - destruct n; [lia|discriminate Hk].
  - destruct n as [|n]; [lia|]. simpl in Hk. injection Hk as -> Hr.
    simpl. destruct i as [|i].
    + rewrite Nat.add_0_r, String.eqb_refl. reflexivity.
    + destruct (String.eqb_spec (str_nat a) (str_nat (a + S i))) as [Heq|_].
      * apply str_nat_inj in Heq. lia.
      * replace (a + S i) with (S a + i) by lia.
        apply (IH (S a) n i Hr). lia.
Qed.

(** On a pool keyed in order, [TXPOOL[str(i)]] is the transaction at
    position [i]. *)
Lemma keyed_lookup (pool : dict Transaction) (i : nat) :
  keyed_in_order pool -> i < length pool ->
  dict_get (str_nat i) pool = nth_error (dict_values pool) i.
Proof.
  intros Hk Hi. exact (keyed_lookup_from pool 0 (length pool) i Hk Hi).
Qed.

Lemma nth_error_values_some (pool : dict Transaction) (i : nat) :
  i < length pool -> exists t, nth_error (dict_values pool) i = Some t.
Proof.
  intros Hi. destruct (nth_error (dict_values pool) i) as [t|] eqn:Hn; [eauto|].
  apply nth_error_None in Hn. unfold dict_values in Hn.
  rewrite length_map in Hn. lia.
Qed.

(** [reward_tx] on a pool keyed in order appends one transaction. *)
Lemma reward_tx_appends (recvr : string) (reward : float)
    (pool : dict Transaction) (sendr : option string) (now : string) :
  keyed_in_order pool ->
  exists tx,
    Miner.reward_tx recvr reward pool sendr now
    = pool ++ [(str_nat (length pool), tx)] /\
    sendr_addr tx = opt_or sendr "IceCereum-Rewards" /\
    recvr_addr tx = recvr /\
    value tx = reward /\
    mining_fee tx = 0%float /\
    final_value tx = reward.
Proof.
  intros Hk. unfold Miner.reward_tx. eexists. split.
  - apply dict_set_next. exact Hk.
  - repeat split.
Qed.

(** The rewarding loop, on positions of the snapshot [pool0]: it never
    raises and appends one reward per position, in order. *)
Lemma pay_rewards_spec (pool0 : dict Transaction) (reward : float)
    (clock : nat -> string) :
  forall picked c extra,
    Forall (fun i => i < length pool0) picked ->
    keyed_in_order (pool0 ++ extra) ->
    exists rewards,
      Miner.pay_rewards picked reward clock c (pool0 ++ extra)
      = Returns (pool0 ++ extra ++ rewards) /\
      keyed_in_order (pool0 ++ extra ++ rewards) /\
      Forall2 (rewards_sender_of pool0 reward) picked (dict_values rewards).
Proof.
  induction picked as [|i picked IH]; intros c extra Hp Hk.
  - exists []. simpl. rewrite app_nil_r. repeat split; [exact Hk|constructor].
  - inversion Hp as [|x l Hi Hrest]; subst.
    destruct (nth_error_values_some pool0 i Hi) as [t Ht].
    assert (Hget : dict_get (str_nat i) (pool0 ++ extra) = Some t).
    { rewrite keyed_lookup.
      - unfold dict_values. rewrite map_app, nth_error_app1.
        + exact Ht.
        + rewrite length_map. exact Hi.
      - exact Hk.
      - rewrite length_app. lia. }
    simpl. unfold Miner.sender_of. rewrite Hget.
    destruct (reward_tx_appends (sendr_addr t) reward (pool0 ++ extra) None
                (clock c) Hk) as (tx & Heq & Hs & Hr & Hv & Hf & Hfv).
    rewrite Heq, <- app_assoc.
    destruct (IH (S c) (extra ++ [(str_nat (length (pool0 ++ extra)), tx)]) Hrest)
      as (rewards & Hpay & Hk' & Hall).
    { rewrite app_assoc. now apply keyed_in_order_snoc. }
    exists ((str_nat (length (pool0 ++ extra)), tx) :: rewards).
    rewrite Hpay. rewrite <- !app_assoc in *. simpl in *.
    repeat split; [exact Hk'|].
    constructor; [|exact Hall].
    exists t. split; [exact Ht|]. repeat split; assumption.
Qed.

(** The sampling loop: what it returns has no repetition, lies in the
    range and has [m + 1] elements. *)
Lemma sample_loop_spec (rnd : Random) (n : nat) (m : Z) :
  forall fuel i acc l,
    Miner.sample_loop fuel rnd i n m acc = Returns l ->
    NoDup acc -> Forall (fun x => x < n) acc ->
    (Z.of_nat (length acc) <= m + 1)%Z ->
    NoDup l /\ Forall (fun x => x < n) l /\ Z.of_nat (length l) = (m + 1)%Z.
Proof.
  induction fuel as [|fuel IH]; intros i acc l H Hnd Hin Hlen.
  - simpl in H.
    destruct (Z.of_nat (length acc) <=? m)%Z eqn:Hc; [discriminate|].
    injection H as <-. apply Z.leb_gt in Hc. repeat split; [assumption..|lia].
  - simpl in H.
    destruct (Z.of_nat (length acc) <=? m)%Z eqn:Hc.
    + apply Z.leb_le in Hc. unfold Miner.randint_below in H.
      destruct (n =? 0)%nat eqn:Hn; [discriminate|].
      apply Nat.eqb_neq in Hn.
      destruct (existsb (Nat.eqb (randint_raw rnd i mod n)) acc) eqn:Hex.
      * apply (IH _ _ _ H); assumption.
      * apply (IH _ _ _ H).
        -- apply NoDup_app; [exact Hnd|constructor; [intros []|constructor]|].
           intros x Hx [<-|[]].
           assert (Htrue : existsb (Nat.eqb (randint_raw rnd i mod n)) acc = true).
           { apply existsb_exists. exists (randint_raw rnd i mod n).
             split; [exact Hx|apply Nat.eqb_refl]. }
           congruence.
        -- apply Forall_app. split; [exact Hin|].
           constructor; [|constructor]. now apply Nat.mod_upper_bound.
        -- rewrite length_app. simpl. lia.
    + injection H as <-. apply Z.leb_gt in Hc. repeat split; [assumption..|lia].
Qed.

Lemma first_draws_S (rnd : Random) (n k : nat) :
  first_draws rnd n (S k) = first_draws rnd n k ++ [randint_raw rnd k mod n].
Proof. unfold first_draws. now rewrite seq_S, map_app. Qed.

Lemma length_first_draws (rnd : Random) (n k : nat) :
  length (first_draws rnd n k) = k.
Proof. unfold first_draws. now rewrite length_map, length_seq. Qed.

(** The sampling loop returns as soon as [m + 1] different positions
    were drawn; if the first [m + 1] draws differ, these are returned. *)
Lemma sample_loop_returns (rnd : Random) (n : nat) (m : Z) :
  n <> 0 -> (0 <= m)%Z ->
  let k := Z.to_nat m + 1 in
  NoDup (first_draws rnd n k) ->
  forall fuel, k <= fuel ->
    Miner.sample_loop fuel rnd 0 n m [] = Returns (first_draws rnd n k).
Proof.
  intros Hn Hm k Hnd.
  assert (Hgen : forall j fuel i,
             i + j = k -> j <= fuel ->
             Miner.sample_loop fuel rnd i n m (first_draws rnd n i)
             = Returns (first_draws rnd n k)).
  { induction j as [|j IH]; intros fuel i Hij Hfuel.
    - rewrite Nat.add_0_r in Hij. subst i.
      assert (Hc : (Z.of_nat (length (first_draws rnd n k)) <=? m)%Z = false).
      { apply Z.leb_gt. rewrite length_first_draws. unfold k. lia. }
      destruct fuel; simpl; now rewrite Hc.
    - destruct fuel as [|fuel]; [lia|]. simpl.
      assert (Hc : (Z.of_nat (length (first_draws rnd n i)) <=? m)%Z = true).
      { apply Z.leb_le. rewrite length_first_draws. unfold k in Hij. lia. }
      rewrite Hc. unfold Miner.randint_below.
      destruct (n =? 0)%nat eqn:Hn0; [apply Nat.eqb_eq in Hn0; contradiction|].
      assert (Hfresh : existsb (Nat.eqb (randint_raw rnd i mod n))
                               (first_draws rnd n i) = false).
      { destruct (existsb _ _) eqn:Hex; [|reflexivity].
        apply existsb_exists in Hex. destruct Hex as [x [Hx Heq]].
        apply Nat.eqb_eq in Heq. subst x.
        assert (Hpre : NoDup (first_draws rnd n (S i))).
        { replace k with (S i + j) in Hnd by lia.
          unfold first_draws in Hnd. rewrite seq_app, map_app in Hnd.
          now apply NoDup_app_remove_r in Hnd. }
        rewrite first_draws_S in Hpre. apply NoDup_remove_2 in Hpre.
        rewrite app_nil_r in Hpre. contradiction. }
      rewrite Hfresh, <- first_draws_S. apply IH; lia. }
  intros fuel Hfuel. exact (Hgen k fuel 0 eq_refl Hfuel).
Qed.

(** The pool that [mine] hashes, on a snapshot keyed in order: the
    snapshot, one reward for each picked position, the payment of the
    miner last.  The picked positions are different positions of the
    snapshot; when k >= 1 there are [int(k) + 1] of them, when k < 1 at
    most one. *)
Lemma distribute_augments (mine_params : MetaParams) (miner_addr : string)
    (rnd : Random) (clock : nat -> string) (fuel : nat)
    (pool' : dict Transaction) :
  let pool := mp_TXPOOL mine_params in
  let N := length pool in
  let k := (mp_percent_tx_rewarded mine_params * float_of_int (Z.of_nat N))%float in
  keyed_in_order pool ->
  Miner.distribute mine_params miner_addr rnd clock fuel = Returns pool' ->
  exists picked,
    augmented_by pool pool' picked (mp_reward_for_tx mine_params) miner_addr
      (float_of_int (Z.of_nat N) * mp_mining_fees mine_params)%float /\
    NoDup picked /\
    Forall (fun i => i < N) picked /\
    ((k <? 1)%float = true -> length picked <= 1) /\
    ((k <? 1)%float = false ->
     forall m, int_of_float k = Returns m -> (0 <= m)%Z ->
               Z.of_nat (length picked) = (m + 1)%Z).
Proof.
  intros pool N k Hk. unfold Miner.distribute. fold pool. fold N. fold k.
  assert (Hpay : forall picked rewards c,
             keyed_in_order (pool ++ rewards) ->
             Forall2 (rewards_sender_of pool (mp_reward_for_tx mine_params))
                     picked (dict_values rewards) ->
             augmented_by pool
               (Miner.reward_tx miner_addr
                  (float_of_int (Z.of_nat N) * mp_mining_fees mine_params)%float
                  (pool ++ rewards) (Some "IceCereum-MiningPayment") (clock c))
               picked (mp_reward_for_tx mine_params) miner_addr
               (float_of_int (Z.of_nat N) * mp_mining_fees mine_params)%float).
  { intros picked rewards c Hkr Hall.
    destruct (reward_tx_appends miner_addr
                (float_of_int (Z.of_nat N) * mp_mining_fees mine_params)%float
                (pool ++ rewards) (Some "IceCereum-MiningPayment") (clock c) Hkr)
      as (tx & Heq & Hs & Hr & Hv & Hf & Hfv).
    exists rewards, (str_nat (length (pool ++ rewards)), tx).
    rewrite Heq, <- app_assoc. split; [reflexivity|]. split.
    - rewrite app_assoc. now apply keyed_in_order_snoc.
    - split; [exact Hall|]. repeat split; assumption. }
  destruct (k <? 1)%float eqn:Hlt.
  - destruct (random_unit rnd <? mp_percent_tx_rewarded mine_params)%float.
    + unfold Miner.randint_below.
      destruct (N =? 0)%nat eqn:HN; [discriminate|].
      apply Nat.eqb_neq in HN.
      assert (Hi : randint_raw rnd 0 mod N < N) by now apply Nat.mod_upper_bound.
      destruct (nth_error_values_some pool _ Hi) as [t Ht].
      simpl. unfold Miner.sender_of.
      rewrite (keyed_lookup pool _ Hk Hi), Ht. simpl.
      destruct (reward_tx_appends (sendr_addr t) (mp_reward_for_tx mine_params)
                  pool None (clock 0) Hk) as (tx & Heq & Hs & Hr & Hv & Hf & Hfv).
      rewrite Heq. intros H. injection H as <-.
      exists [randint_raw rnd 0 mod N]. split; [|split; [|split; [|split]]].
      * apply Hpay; [now apply keyed_in_order_snoc|].
        constructor; [|constructor].
        exists t. split; [exact Ht|]. repeat split; assumption.
      * constructor; [intros []|constructor].
      * constructor; [exact Hi|constructor].
      * intros _. simpl. lia.
      * discriminate.
    + simpl. intros H. injection H as <-.
      exists []. split; [|split; [|split; [|split]]].
      * rewrite <- (app_nil_r pool) at 2.
        apply Hpay; [now rewrite app_nil_r|constructor].
      * constructor.
      * constructor.
      * intros _. simpl. lia.
      * discriminate.
  - destruct (int_of_float k) as [m| |] eqn:Hint; simpl; try discriminate.
    destruct (Miner.sample_loop fuel rnd 0 N m []) as [l| |] eqn:Hsample; simpl;
      try discriminate.
    assert (Hin : Forall (fun x => x < N) l /\ NoDup l /\
                  ((0 <= m)%Z -> Z.of_nat (length l) = (m + 1)%Z)).
    { destruct (Z_lt_le_dec m 0) as [Hneg|Hpos].
      - destruct fuel; simpl in Hsample;
          (destruct (0 <=? m)%Z eqn:Hc; [apply Z.leb_le in Hc; lia|]);
          injection Hsample as <-;
          (split; [constructor|split; [constructor|lia]]).
      - destruct (sample_loop_spec rnd N m fuel 0 [] l Hsample) as (H1 & H2 & H3).
        + constructor.
        + constructor.
        + simpl. lia.
        + split; [exact H2|split; [exact H1|intros _; exact H3]]. }
    destruct Hin as (Hrange & Hnd & Hlen).
    destruct (pay_rewards_spec pool (mp_reward_for_tx mine_params) clock l 0 []
                Hrange) as (rewards & Hpr & Hkr & Hall).
    { now rewrite app_nil_r. }
    rewrite app_nil_r in Hpr. simpl in Hpr, Hkr. rewrite Hpr. simpl.
    intros H. injection H as <-.
    exists l. split; [|split; [|split; [|split]]].
    + now apply Hpay.
    + exact Hnd.
    + exact Hrange.
    + discriminate.
    + intros _ m' Hm' Hpos. injection Hm' as <-. now apply Hlen.
Qed.

(** On a snapshot keyed in order with at least one transaction,
    [mine] gets past the rewards: always when k < 1, and when k >= 1 as
    soon as the first [int(k) + 1] draws are different positions. *)
Lemma distribute_returns (mine_params : MetaParams) (miner_addr : string)
    (rnd : Random) (clock : nat -> string) (fuel : nat) :
  let pool := mp_TXPOOL mine_params in
  let N := length pool in
  let k := (mp_percent_tx_rewarded mine_params * float_of_int (Z.of_nat N))%float in
  keyed_in_order pool ->
  N <> 0 ->
  ((k <? 1)%float = false ->
   exists m, int_of_float k = Returns m /\ (0 <= m)%Z /\
             NoDup (first_draws rnd N (Z.to_nat m + 1)) /\
             Z.to_nat m + 1 <= fuel) ->
  exists pool', Miner.distribute mine_params miner_addr rnd clock fuel
                = Returns pool'.
Proof.
  intros pool N k Hk HN Hdraw. unfold Miner.distribute. fold pool. fold N. fold k.
  destruct (k <? 1)%float.
  - destruct (random_unit rnd <? mp_percent_tx_rewarded mine_params)%float;
      [|simpl; eauto].
    unfold Miner.randint_below.
    destruct (N =? 0)%nat eqn:HN0; [apply Nat.eqb_eq in HN0; contradiction|].
    assert (Hi : randint_raw rnd 0 mod N < N) by now apply Nat.mod_upper_bound.
    destruct (nth_error_values_some pool _ Hi) as [t Ht].
    simpl. unfold Miner.sender_of.
    rewrite (keyed_lookup pool _ Hk Hi), Ht. simpl. eauto.
  - destruct (Hdraw eq_refl) as (m & Hint & Hm & Hnd & Hfuel).
    rewrite Hint. simpl.
    rewrite (sample_loop_returns rnd N m HN Hm Hnd fuel Hfuel). simpl.
    assert (Hrange : Forall (fun x => x < N) (first_draws rnd N (Z.to_nat m + 1))).
    { unfold first_draws. apply Forall_forall. intros x Hx.
      apply in_map_iff in Hx. destruct Hx as (i & <- & _).
      now apply Nat.mod_upper_bound. }
    destruct (pay_rewards_spec pool (mp_reward_for_tx mine_params) clock _ 0 []
                Hrange) as (rewards & Hpr & _ & _).
    { now rewrite app_nil_r. }
    rewrite app_nil_r in Hpr. rewrite Hpr. simpl. eauto.
Qed.

End Rewards.

(** C6 on the empty pool.  After genesis the pool is empty and the
    ledger posts it with the fraction 0.1; N = 0 and k = 0 < 1.  When
    [random()] answers 0.05 (below 0.1), [randint(0, -1)] raises
    [ValueError]: [mine] returns nothing and no mining payment is
    appended, for every digest function, raw draw and fuel. *)
Theorem mine_empty_pool_raises :
  (exists POST_data,
      Chain.get_latest_block_metaparams (E := demo_extern) demo_genesis
      = Some POST_data /\
      mp_TXPOOL POST_data = [] /\
      mp_percent_tx_rewarded POST_data = 0.1%float) /\
  forall (E : Extern) (index : nat) (prev_hash : string) (difficulty : Z)
         (fees reward : float) (miner_addr : string) (raw : nat -> nat)
         (time_utc : nat -> string) (fuel : nat),
    let mine_params :=
      mkMetaParams index [] prev_hash difficulty fees 0 reward 0.1 in
    Miner.distribute mine_params miner_addr (mkRandom 0.05 raw) time_utc fuel
    = Raises ValueError /\
    Miner.mine mine_params miner_addr (mkRandom 0.05 raw) time_utc fuel
    = Raises ValueError.
Proof.
  split.
  - eexists. split; [reflexivity|]. split; reflexivity.
  - intros. split; reflexivity.
Qed.

(* ===================================================================== *)
(** ** Further properties: pool and balances *)
(* ===================================================================== *)

Section PoolAndBalances.
Context {E : Extern}.

(** X1.  In every ledger built by genesis creation followed by calls
    (of the class or of the routes) none of whose seals raised,
    [transaction_number] is the number of transactions in [TXPOOL], the
    keys of [TXPOOL] are "0", "1", ... in insertion order, and [index]
    is the number of blocks of the chain. *)
Theorem pool_counted_and_keyed (cs : list Call) (s : Cryptocurrency) :
  built_by_returning_seals cs s ->
  transaction_number s = length (TXPOOL s) /\
  dict_keys (TXPOOL s) = map str_nat (seq 0 (transaction_number s)) /\
  index s = length (chain s).
Proof.
  intros Hb. destruct (built_invariants cs s Hb) as [[Hi _] [Hn Hk]].
  split; [exact Hn|]. split; [|exact Hi].
  rewrite Hn. exact Hk.
Qed.





(** Sealing keeps every balance and every existence flag. *)
Lemma create_block_keeps_queries s h n t s' b :
  Chain.create_block s h n t = Some (s', b) ->
  forall a,
    Chain.get_balance_of_addr s' a = Chain.get_balance_of_addr s a /\
    fst (Chain.get_transactions_of_addr s' a)
    = fst (Chain.get_transactions_of_addr s a).
Proof.
  intros Hcb a. pose proof (create_block_history _ _ _ _ _ _ Hcb) as Hh.
  rewrite !get_balance_of_addr_spec, !get_transactions_of_addr_flag, Hh.
  split; reflexivity.
Qed.

End PoolAndBalances.

(* ===================================================================== *)
(** ** Further properties: numbered dicts and the history query *)
(* ===================================================================== *)

Section Numbered.
Context {V : Type}.

Lemma numbered_from_cons (a : nat) (x : V) (l : list V) :
  numbered_from a (x :: l) = (str_nat a, x) :: numbered_from (S a) l.
Proof. reflexivity. Qed.

Lemma length_numbered_from (a : nat) (l : list V) :
  length (numbered_from a l) = length l.
Proof.
  unfold numbered_from. rewrite length_combine, length_map, length_seq.
  apply Nat.min_id.
Qed.

Lemma values_numbered_from (l : list V) :
  forall a, dict_values (numbered_from a l) = l.
Proof.
  induction l as [|x l IH]; intros a; [reflexivity|].
  rewrite numbered_from_cons. simpl. f_equal. apply IH.
Qed.

Lemma keys_numbered_from (l : list V) :
  forall a, dict_keys (numbered_from a l) = map str_nat (seq a (length l)).
Proof.
  induction l as [|x l IH]; intros a; [reflexivity|].
  rewrite numbered_from_cons. simpl. f_equal. apply IH.
Qed.

(** Assigning to the next number appends. *)
Lemma numbered_from_snoc (v : V) (l : list V) :
  forall a,
    dict_set (str_nat (a + length l)) v (numbered_from a l)
    = numbered_from a (l ++ [v]).
Proof.
  induction l as [|x l IH]; intros a.
  - simpl. now rewrite Nat.add_0_r.
  - rewrite numbered_from_cons. simpl app. rewrite numbered_from_cons.
    cbn [length]. simpl dict_set.
    destruct (String.eqb_spec (str_nat a) (str_nat (a + S (length l))))
      as [Heq|_].
    + apply str_nat_inj in Heq. lia.
    + f_equal. replace (a + S (length l)) with (S a + length l) by lia.
      apply IH.
Qed.

(** Looking a number up gives the element at that position, and
    nothing beyond the end. *)
Lemma numbered_from_lookup (l : list V) :
  forall a i, dict_get (str_nat (a + i)) (numbered_from a l) = nth_error l i.
Proof.
  induction l as [|x l IH]; intros a i.
  - now destruct i.
  - rewrite numbered_from_cons. simpl dict_get. destruct i as [|i].
    + now rewrite Nat.add_0_r, String.eqb_refl.
    + destruct (String.eqb_spec (str_nat a) (str_nat (a + S i))) as [Heq|_].
      * apply str_nat_inj in Heq. lia.
      * replace (a + S i) with (S a + i) by lia. apply IH.
Qed.

End Numbered.

Section HistoryQuery.
Context {E : Extern}.

Lemma numbered_snoc {V : Type} (v : V) (l : list V) :
  dict_set (str_nat (length l)) v (numbered l) = numbered (l ++ [v]).
Proof. exact (numbered_from_snoc v l 0). Qed.

Lemma history_step_numbered (a : string) (p : bool) (fl : bool)
    (l : list TxView) (t : Transaction) :
  Chain.history_step a p (fl, numbered l, length l) t
  = (fl || involves a t, numbered (l ++ views_of a p t),
     length (l ++ views_of a p t)).
Proof.
  unfold Chain.history_step, involves, views_of.
  destruct (String.eqb (sendr_addr t) a), (String.eqb (recvr_addr t) a);
    cbn [orb app].
  - rewrite numbered_snoc.
    replace (length l + 1) with (length (l ++ [mkTxView t "send" p]))
      by (rewrite length_app; reflexivity).
    rewrite numbered_snoc, <- app_assoc, orb_true_r.
    f_equal. rewrite !length_app. simpl. lia.
  - rewrite numbered_snoc, length_app, orb_true_r. reflexivity.
  - rewrite numbered_snoc, length_app, orb_true_r. reflexivity.
  - now rewrite app_nil_r, orb_false_r.
Qed.

Lemma history_scan_numbered (a : string) (p : bool) (txs : list Transaction) :
  forall fl l,
    fold_left (Chain.history_step a p) txs (fl, numbered l, length l)
    = (fl || existsb (involves a) txs,
       numbered (l ++ flat_map (views_of a p) txs),
       length (l ++ flat_map (views_of a p) txs)).
Proof.
  induction txs as [|t txs IH]; intros fl l; cbn [fold_left existsb flat_map].
  - now rewrite app_nil_r, orb_false_r.
  - rewrite history_step_numbered, IH, orb_assoc, <- app_assoc. reflexivity.
Qed.

(** What [get_transactions_of_addr] returns. *)
Lemma get_transactions_of_addr_numbered (s : Cryptocurrency) (address : string) :
  Chain.get_transactions_of_addr s address
  = (appears address (history s), numbered (views address s)).
Proof.
  unfold Chain.get_transactions_of_addr, appears, history, committed, views.
  rewrite fold_blocks_flat.
  change (false, @nil (string * TxView), 0)
    with (false, numbered (@nil TxView), length (@nil TxView)).
  rewrite history_scan_numbered. simpl app.
  rewrite history_scan_numbered, existsb_app. reflexivity.
Qed.

(** X3.  [get_transactions_of_addr] returns the records of the
    transactions whose sender or receiver is the address as given,
    committed blocks first (tagged [in_txpool = False]) and then the
    pool (tagged [True]), each transaction giving a "send" record if the
    address sent it and then a "receive" record if it received it (both
    for a transfer to oneself); the records are numbered "0", "1", ...
    in this order, so that record [str(i)] is the [i]-th of them and no
    other key exists; the flag says whether there is any record. *)
Theorem get_transactions_of_addr_records (s : Cryptocurrency) (address : string) :
  let answer := Chain.get_transactions_of_addr s address in
  let records := views address s in
  dict_values (snd answer) = records /\
  dict_keys (snd answer) = map str_nat (seq 0 (length records)) /\
  (forall i, dict_get (str_nat i) (snd answer) = nth_error records i) /\
  fst answer = negb (Nat.eqb (length records) 0) /\
  fst answer = appears address (history s).
Proof.
  cbv zeta. rewrite get_transactions_of_addr_numbered. simpl fst. simpl snd.
  split; [apply values_numbered_from|].
  split; [apply keys_numbered_from|].
  split; [intros i; apply (numbered_from_lookup (views address s) 0 i)|].
  split; [|reflexivity].
  unfold appears, views, history.
  rewrite length_app, existsb_app.
  assert (Hcount : forall p txs,
             existsb (involves address) txs
             = negb (length (flat_map (views_of address p) txs) =? 0)%nat).
  { intros p txs. induction txs as [|t txs IH]; [reflexivity|].
    cbn [existsb flat_map]. rewrite length_app, IH.
    unfold involves, views_of.
    destruct (String.eqb (sendr_addr t) address),
             (String.eqb (recvr_addr t) address); reflexivity. }
  rewrite (Hcount false), (Hcount true).
  destruct (length (flat_map (views_of address false) (committed s)));
    simpl; [|reflexivity].
  reflexivity.
Qed.

(** X4.  Sealing the pool with [create_block] changes no balance and no
    existence flag, and afterwards every record of
    [get_transactions_of_addr] is tagged [in_txpool = False]: the
    records are those of the whole former history, committed. *)
Theorem sealing_keeps_balances (s s' : Cryptocurrency) (b : Block)
    (mined_block_hash nonce time_utc : string) :
  Chain.create_block s mined_block_hash nonce time_utc = Some (s', b) ->
  forall address,
    Chain.get_balance_of_addr s' address = Chain.get_balance_of_addr s address /\
    fst (Chain.get_transactions_of_addr s' address)
    = fst (Chain.get_transactions_of_addr s address) /\
    dict_values (snd (Chain.get_transactions_of_addr s' address))
    = flat_map (views_of address false) (history s).
Proof.
  intros Hcb a.
  destruct (create_block_keeps_queries _ _ _ _ _ _ Hcb a) as [Hb Hf].
  split; [exact Hb|]. split; [exact Hf|].
  rewrite get_transactions_of_addr_numbered. simpl snd.
  unfold numbered. rewrite values_numbered_from. unfold views.
  pose proof (create_block_history _ _ _ _ _ _ Hcb) as Hh.
  unfold history in Hh.
  assert (Hp : TXPOOL s' = []).
  { rewrite create_block_unfold in Hcb.
    destruct (if negb (index s =? 0)%nat then _ else _); [|discriminate].
    destruct (Chain.Mu (transaction_number s)); [|discriminate].
    now injection Hcb as <- _. }
  rewrite Hp in *. simpl in *. rewrite app_nil_r in *.
  now rewrite Hh.
Qed.

(** X5.  For an address given in lower case, [get_balance_of_addr] and
    [get_transactions_of_addr] agree on whether the address exists. *)
Theorem queries_agree_on_lower_case (s : Cryptocurrency) (address : string) :
  lower address = address ->
  fst (Chain.get_transactions_of_addr s address)
  = fst (Chain.get_balance_of_addr s address).
Proof.
  intros Hl.
  rewrite get_transactions_of_addr_flag, get_balance_of_addr_spec, Hl.
  reflexivity.
Qed.

End HistoryQuery.

(* ===================================================================== *)
(** ** Further properties: block files *)
(* ===================================================================== *)

Section BlockFiles.
Context {E : Extern}.

Lemma get_complete_chain_numbered (block_files : list BlockDict) :
  ChainRead.get_complete_chain block_files = numbered block_files.
Proof.
  unfold ChainRead.get_complete_chain.
  assert (Hgen : forall (files l : list BlockDict),
             fold_left
               (fun acc block_dict =>
                  (S (fst acc), dict_set (str_nat (fst acc)) block_dict (snd acc)))
               files (length l, numbered l)
             = (length (l ++ files), numbered (l ++ files))).
  { induction files as [|d files IH]; intros l; simpl.
    - now rewrite app_nil_r.
    - rewrite numbered_snoc.
      replace (S (length l)) with (length (l ++ [d]))
        by (rewrite length_app; simpl; lia).
      rewrite IH, <- app_assoc. reflexivity. }
  exact (f_equal snd (Hgen block_files [])).
Qed.

(** X6.  [get_complete_chain] keys the block files by their position in
    the directory listing, not by their [block_index]: entry [str(i)]
    is the [i]-th file listed, there are as many entries as files, and
    no entry beyond. *)
Theorem get_complete_chain_by_position (block_files : list BlockDict) :
  let complete_chain := ChainRead.get_complete_chain block_files in
  (forall i, dict_get (str_nat i) complete_chain = nth_error block_files i) /\
  dict_keys complete_chain = map str_nat (seq 0 (length block_files)) /\
  dict_values complete_chain = block_files.
Proof.
  cbv zeta. rewrite get_complete_chain_numbered.
  split; [intros i; apply (numbered_from_lookup block_files 0 i)|].
  split; [apply keys_numbered_from|apply values_numbered_from].
Qed.

Lemma append_tail_inj (x : string) :
  forall a b : string, (a ++ x)%string = (b ++ x)%string -> a = b.
Proof.
  assert (Hlen : forall a b : string,
             String.length (a ++ b) = String.length a + String.length b).
  { induction a as [|c a IH]; intros b; simpl; [reflexivity|]. now rewrite IH. }
  induction a as [|c a IH]; intros b H.
  - destruct b as [|d b]; [reflexivity|].
    apply (f_equal String.length) in H. simpl in H. rewrite Hlen in H. lia.
  - destruct b as [|d b].
    + apply (f_equal String.length) in H. simpl in H. rewrite Hlen in H. lia.
    + simpl in H. injection H as -> H. f_equal. now apply IH.
Qed.

Lemma file_name_inj (i j : nat) : file_name i = file_name j -> i = j.
Proof.
  unfold file_name. intros H. apply append_tail_inj in H.
  now apply str_nat_inj.
Qed.

Lemma file_name_fresh (n : nat) : ~ In (file_name n) (map file_name (seq 0 n)).
Proof.
  intros Hin. apply in_map_iff in Hin. destruct Hin as (j & Hj & Hin).
  apply file_name_inj in Hj. apply in_seq in Hin. lia.
Qed.

Lemma create_block_disk_inv s h n t s' b :
  disk_inv s -> Chain.create_block s h n t = Some (s', b) -> disk_inv s'.
Proof.
  intros [Hk Hv]. rewrite create_block_unfold.
  destruct (if negb (index s =? 0)%nat then _ else _) as [p|]; [|discriminate].
  destruct (Chain.Mu (transaction_number s)) as [mu|]; [|discriminate].
  intros H. injection H as <- <-. unfold disk_inv. cbn [blocks_path index chain].
  fold (file_name (index s)).
  rewrite dict_set_fresh by (rewrite Hk; apply file_name_fresh).
  split.
  - rewrite dict_keys_app, Hk, Nat.add_1_r, seq_S, map_app. reflexivity.
  - unfold dict_values. rewrite map_app, map_app. fold (dict_values (blocks_path s)).
    rewrite Hv. reflexivity.
Qed.

Lemma built_disk_inv cs s : built_in_empty_directory cs s -> disk_inv s.
Proof.
  intros (address & amount & t1 & t2 & s0 & Hg & Hret & ->).
  apply (run_calls_keep_returning disk_inv); [| | |exact Hret|].
  - intros s a b v f t k H. exact H.
  - intros s h n t s' b. apply create_block_disk_inv.
  - intros s r t s' H Hm.
    destruct (mine_block_created _ _ _ _ Hm) as (m & b & _ & Hcb).
    refine (create_block_disk_inv _ _ _ _ _ _ _ Hcb). exact H.
  - unfold Chain.init_genesis in Hg.
    destruct (Chain.create_block _ _ _ _) as [[s' b]|] eqn:Hcb; [|discriminate].
    injection Hg as <-.
    refine (create_block_disk_inv _ _ _ _ _ _ _ Hcb).
    split; reflexivity.
Qed.

Lemma block_of_dict_stored (d : BlockDict) (t : string) :
  bd_timestamp d <> "" -> Chain.block_of_dict d t = stored_block d.
Proof.
  intros H. unfold Chain.block_of_dict, Block_init, stored_block.
  f_equal. simpl. destruct (bd_timestamp d); [contradiction|reflexivity].
Qed.

(** X7.  Round trip of the block files.  For a ledger built by genesis
    creation in an empty directory followed by calls none of whose
    seals raised, whose blocks all carry a non-empty timestamp: the
    directory holds the files
    "0.json", "1.json", ... in the order written, and [load_chain] on
    these files in that order rebuilds the same chain (block by block,
    hence with the same block hashes and the same links) and the same
    [index].  The pending pool and the current fee and reward are not
    restored: the pool is empty and the fee is 1 and the reward 1.5
    again. *)
Theorem load_chain_round_trip (cs : list Call) (s : Cryptocurrency)
    (time_utc : string) :
  built_in_empty_directory cs s ->
  Forall (fun b => block_timestamp b <> "") (chain s) ->
  let loaded :=
    ChainAPI.load_chain (blocks_path s) (dict_values (blocks_path s)) time_utc in
  dict_keys (blocks_path s) = map file_name (seq 0 (index s)) /\
  chain loaded = chain s /\
  index loaded = index s /\
  map block_hash (chain loaded) = map block_hash (chain s) /\
  linked (chain loaded) /\
  TXPOOL loaded = [] /\
  transaction_number loaded = 0 /\
  _mining_fees loaded = 1%float /\
  _reward_for_transaction loaded = 1.5%float.
Proof.
  intros Hb Hts loaded.
  destruct (built_disk_inv cs s Hb) as [Hk Hv].
  assert (Hchain : chain loaded = chain s).
  { unfold loaded, ChainAPI.load_chain. rewrite load_chain_chain. simpl.
    rewrite <- Hv. rewrite <- Hv in Hts. clear Hv Hk.
    induction (dict_values (blocks_path s)) as [|d l IH]; [reflexivity|].
    simpl in *. inversion Hts as [|x y Hd Hl]; subst.
    rewrite block_of_dict_stored by exact Hd. f_equal. now apply IH. }
  split; [exact Hk|]. split; [exact Hchain|]. split.
  - unfold loaded, ChainAPI.load_chain, Chain.load_chain. cbn [index].
    unfold dict_values. rewrite length_map.
    rewrite <- (length_map fst). fold (dict_keys (blocks_path s)).
    now rewrite Hk, length_map, length_seq.
  - split; [now rewrite Hchain|]. split.
    + rewrite Hchain.
      assert (Hbuilt : built_from_genesis cs s).
      { destruct Hb as (address & amount & t1 & t2 & s0 & Hg & _ & Hs).
        exists [], address, amount, t1, t2, s0. now split. }
      exact (proj2 (built_chain_inv cs s Hbuilt)).
    + repeat split.
Qed.

(** X8.  On a ledger built from genesis by calls none of whose seals
    raised, the metaparameters posted to the mining node describe the
    block that a seal then creates: the same index, the advertised
    [prev_hash] as [previous_block_hash], the same difficulty, and the
    whole pool as transactions; the advertised number of transactions
    is their number, and the file written for the block records the
    advertised fee and reward (those in force before [set_metaparams]
    recomputes them).  The seal returns unless [exp] overflows for the
    current counter. *)
Theorem metaparams_describe_sealed_block (cs : list Call) (s : Cryptocurrency)
    (mined_block_hash nonce time_utc : string) :
  built_by_returning_seals cs s ->
  Chain.Mu (transaction_number s) <> None ->
  exists m s' b file,
    Chain.get_latest_block_metaparams s = Some m /\
    Chain.create_block s mined_block_hash nonce time_utc = Some (s', b) /\
    block_index b = mp_index m /\
    previous_block_hash b = PrevStr (mp_prev_hash m) /\
    difficulty b = mp_difficulty m /\
    transactions b = mp_TXPOOL m /\
    length (transactions b) = mp_num_tx_TXPOOL m /\
    dict_get (file_name (mp_index m)) (blocks_path s') = Some file /\
    stored_block file = b /\
    bd_mining_fee file = mp_mining_fees m /\
    bd_reward_for_tx file = mp_reward_for_tx m /\
    bd_percent_tx_rewarded file = mp_percent_tx_rewarded m.
Proof.
  intros Hb Hmu. destruct (built_invariants cs s Hb) as [[Hi Hl] [Hn _]].
  apply built_by_returning_seals_built in Hb.
  destruct (last_block_nonempty s (built_chain_nonempty cs s Hb)) as [bl Hbl].
  assert (H0 : (index s =? 0)%nat = false).
  { apply Nat.eqb_neq. intros H0. rewrite H0 in Hi.
    apply (built_chain_nonempty cs s Hb). now destruct (chain s). }
  rewrite create_block_unfold. unfold Chain.get_latest_block_metaparams.
  rewrite Hbl, H0. cbn [negb].
  destruct (Chain.Mu (transaction_number s)) as [mu|]; [|now elim Hmu].
  do 4 eexists. split; [reflexivity|]. split; [reflexivity|].
  cbn. fold (file_name (index s)). rewrite dict_get_set_same.
  repeat split. now symmetry.
Qed.


End BlockFiles.

(* ===================================================================== *)
(** ** Further properties: the transfer route *)
(* ===================================================================== *)

Section TransferRoute.
Context {E : Extern}.

Lemma validate_rejected_unchanged s tx f t code s' :
  Chain.validate_add_transaction s tx f t = (code, s') ->
  ChainAPI.validation_response code <> TransactionAdded ->
  s' = s.
Proof.
  unfold Chain.validate_add_transaction.
  destruct (Chain.get_balance_of_addr s _) as [fl bal].
  destruct (negb fl); [intros H _; now injection H as _ <-|].
  destruct (_ <? _)%float; intros H Hr; injection H as <- <-;
    [reflexivity|]. now contradiction Hr.
Qed.

(** X10.  Whatever the session and the body of a POST to the transfer
    route, an answer other than "TRANSACTION SUCCESSFULLY ADDED" leaves
    the ledger exactly as it was; and any POST leaves the chain, the
    index, the fee, the reward and the block files as they were. *)
Theorem post_failure_changes_nothing (Crypto Crypto' : Cryptocurrency)
    (session : Session) (request_body : RequestBody) (time_utc : string)
    (answer : Response) :
  ChainAPI.add_transaction_POST Crypto session request_body time_utc
  = (answer, Crypto') ->
  (answer <> TransactionAdded -> Crypto' = Crypto) /\
  chain Crypto' = chain Crypto /\
  index Crypto' = index Crypto /\
  _mining_fees Crypto' = _mining_fees Crypto /\
  _reward_for_transaction Crypto' = _reward_for_transaction Crypto /\
  blocks_path Crypto' = blocks_path Crypto.
Proof.
  unfold ChainAPI.add_transaction_POST.
  repeat match goal with
         | |- context [match ?x with _ => _ end] =>
             match type of x with
             | option _ => destruct x
             | Recovered => destruct x
             | bool => destruct x
             end; simpl;
             try (intros H; injection H as <- <-; repeat split; reflexivity)
         end.
  match goal with
  | |- context [Chain.validate_add_transaction ?a ?b ?c ?d] =>
      destruct (Chain.validate_add_transaction a b c d) as [code s'] eqn:Hval
  end.
  intros H. injection H as <- <-. split.
  - intros Hr. exact (validate_rejected_unchanged _ _ _ _ _ _ Hval Hr).
  - unfold Chain.validate_add_transaction in Hval.
    destruct (Chain.get_balance_of_addr Crypto _) as [fl bal].
    destruct (negb fl); [injection Hval as _ <-; repeat split|].
    destruct (_ <? _)%float; injection Hval as _ <-; repeat split.
Qed.

(** X11.  The POST branch of the transfer route requires the keys
    "identifier" in the session and "one_time_nonce" in the body but
    never looks at their values: two requests that differ only there get
    the same answer and leave the same ledger.  (The token that counts
    is the one of the session, and the sender that counts is the one of
    the body.) *)
Theorem post_ignores_identifier_and_body_nonce (Crypto : Cryptocurrency)
    (identifier1 identifier2 : string) (token : option string)
    (sendr_addr recvr_addr : option string) (value : option float)
    (body_nonce1 body_nonce2 : string)
    (skscript skscript_nonce : option string) (time_utc : string) :
  ChainAPI.add_transaction_POST Crypto
    (mkSession (Some identifier1) token)
    (mkRequestBody sendr_addr recvr_addr value (Some body_nonce1)
                   skscript skscript_nonce) time_utc
  = ChainAPI.add_transaction_POST Crypto
      (mkSession (Some identifier2) token)
      (mkRequestBody sendr_addr recvr_addr value (Some body_nonce2)
                     skscript skscript_nonce) time_utc.
Proof.
  unfold ChainAPI.add_transaction_POST.
  destruct (ChainAPI.current_mining_fees Crypto); [|reflexivity].
  destruct token, sendr_addr, recvr_addr, value, skscript, skscript_nonce;
    reflexivity.
Qed.

End TransferRoute.

(* ===================================================================== *)
(** ** Further properties: the miner *)
(* ===================================================================== *)

Section MinerEdges.
Context {E : Extern}.

(** X12.  What [mine] returns on a snapshot keyed "0", "1", ... in
    order: the returned pool is the snapshot, unchanged, followed by one
    reward transaction for each picked position (sender
    "IceCereum-Rewards", receiver the sender of the snapshot's
    transaction at that position, value and final value the reward,
    fee 0.0), followed last by the payment of the miner (sender
    "IceCereum-MiningPayment", value N times the fee, fee 0.0); the
    keys go on in order; the picked positions are different positions
    of the snapshot, at most one when k < 1 and [int(k) + 1] when
    k >= 1. *)
Theorem mine_augments_snapshot (mine_params : MetaParams) (miner_addr : string)
    (rnd : Random) (clock : nat -> string) (fuel : nat)
    (h x : string) (pool' : dict Transaction) :
  let pool := mp_TXPOOL mine_params in
  let N := length pool in
  let k := (mp_percent_tx_rewarded mine_params * float_of_int (Z.of_nat N))%float in
  keyed_in_order pool ->
  Miner.mine mine_params miner_addr rnd clock fuel = Returns (h, x, pool') ->
  exists picked,
    augmented_by pool pool' picked (mp_reward_for_tx mine_params) miner_addr
      (float_of_int (Z.of_nat N) * mp_mining_fees mine_params)%float /\
    NoDup picked /\
    Forall (fun i => i < N) picked /\
    length pool' = N + length picked + 1 /\
    ((k <? 1)%float = true -> length picked <= 1) /\
    ((k <? 1)%float = false ->
     forall m, int_of_float k = Returns m -> (0 <= m)%Z ->
               Z.of_nat (length picked) = (m + 1)%Z).
Proof.
  intros pool N k Hk Hmine. unfold Miner.mine in Hmine.
  destruct (Miner.distribute mine_params miner_addr rnd clock fuel)
    as [p| |] eqn:Hd; simpl in Hmine; try discriminate.
  destruct (Miner.search fuel _ _ _) as [[h' n]| |]; simpl in Hmine;
    try discriminate.
  injection Hmine as _ _ <-.
  destruct (distribute_augments mine_params miner_addr rnd clock fuel p Hk Hd)
    as (picked & Haug & Hnd & Hr & Hlt & Hge).
  exists picked. split; [exact Haug|]. split; [exact Hnd|].
  split; [exact Hr|]. split; [|split; assumption].
  destruct Haug as (rewards & payment & Heq & _ & Hall & _).
  rewrite Heq, !length_app. simpl.
  apply Forall2_length in Hall. unfold dict_values in Hall.
  rewrite length_map in Hall. unfold N, pool. lia.
Qed.

Lemma NoDup_below_length (n : nat) (l : list nat) :
  NoDup l -> Forall (fun x => x < n) l -> length l <= n.
Proof.
  intros Hnd Hall.
  assert (Hincl : incl l (seq 0 n)).
  { intros x Hx. apply in_seq. rewrite Forall_forall in Hall.
    specialize (Hall x Hx). lia. }
  pose proof (NoDup_incl_length Hnd Hincl) as Hle.
  now rewrite length_seq in Hle.
Qed.

Lemma sample_loop_never_raises (rnd : Random) (n : nat) (m : Z) :
  n <> 0 ->
  forall fuel i acc e, Miner.sample_loop fuel rnd i n m acc <> Raises e.
Proof.
  intros Hn. induction fuel as [|fuel IH]; intros i acc e; simpl.
  - destruct (_ <=? _)%Z; discriminate.
  - destruct (_ <=? _)%Z; [|discriminate].
    unfold Miner.randint_below.
    destruct (n =? 0)%nat eqn:Hn0; [apply Nat.eqb_eq in Hn0; contradiction|].
    apply IH.
Qed.

(** X13.  The sampling loop of [mine] cannot finish when [int(k)] is at
    least the number N of transactions (it asks for [int(k) + 1]
    different positions among N): on a non-empty pool, whatever the
    random draws and however long it runs, it neither returns nor
    raises, and so [mine] returns nothing (for instance with the
    fraction 1.0 on a pool of one transaction, where k = 1). *)
Theorem sampling_cannot_finish (mine_params : MetaParams) (miner_addr : string)
    (rnd : Random) (clock : nat -> string) (m : Z) :
  let N := length (mp_TXPOOL mine_params) in
  let k := (mp_percent_tx_rewarded mine_params * float_of_int (Z.of_nat N))%float in
  N <> 0 ->
  (k <? 1)%float = false ->
  int_of_float k = Returns m ->
  (Z.of_nat N <= m)%Z ->
  forall fuel,
    Miner.sample_loop fuel rnd 0 N m [] = NoResult /\
    Miner.distribute mine_params miner_addr rnd clock fuel = NoResult /\
    Miner.mine mine_params miner_addr rnd clock fuel = NoResult.
Proof.
  intros N k HN Hk Hint Hm fuel.
  assert (Hs : Miner.sample_loop fuel rnd 0 N m [] = NoResult).
  { destruct (Miner.sample_loop fuel rnd 0 N m []) as [l|e|] eqn:Hs; [| |reflexivity].
    - destruct (sample_loop_spec rnd N m fuel 0 [] l Hs) as (Hnd & Hall & Hlen);
        [constructor|constructor|simpl; lia|].
      pose proof (NoDup_below_length N l Hnd Hall). lia.
    - exfalso. exact (sample_loop_never_raises rnd N m HN fuel 0 [] e Hs). }
  split; [exact Hs|].
  assert (Hd : Miner.distribute mine_params miner_addr rnd clock fuel = NoResult).
  { unfold Miner.distribute. fold N. fold k. rewrite Hk, Hint. simpl.
    now rewrite Hs. }
  split; [exact Hd|]. unfold Miner.mine. now rewrite Hd.
Qed.

Lemma search_without_match (block_str : string) (d : Z) :
  (forall j, Z.of_nat (Miner.n_zeroes (Miner.digest block_str j)) <> d) ->
  forall fuel n, Miner.search fuel block_str d n = NoResult.
Proof.
  intros Hno. induction fuel as [|fuel IH]; intros n; simpl; [reflexivity|].
  destruct (Z.eqb_spec (Z.of_nat (Miner.n_zeroes (Miner.digest block_str n))) d)
    as [Heq|_]; [now apply Hno in Heq|apply IH].
Qed.

Lemma n_zeroes_le_length (s : string) : Miner.n_zeroes s <= String.length s.
Proof. unfold Miner.n_zeroes. lia. Qed.

(** X14.  The proof-of-work search of [mine] never ends when the
    difficulty is negative, or larger than the length of every digest
    (64 for sha3-256): no number of leading zeros can equal it, so for
    every amount of running the search has no result and [mine] returns
    nothing. *)
Theorem search_cannot_finish (mine_params : MetaParams) (miner_addr : string)
    (rnd : Random) (clock : nat -> string) (digest_length : nat) :
  (forall s, String.length (sha3_256 s) = digest_length) ->
  (mp_difficulty mine_params < 0 \/
   Z.of_nat digest_length < mp_difficulty mine_params)%Z ->
  forall fuel block_str n h x pool,
    Miner.search fuel block_str (mp_difficulty mine_params) n = NoResult /\
    Miner.mine mine_params miner_addr rnd clock fuel <> Returns (h, x, pool).
Proof.
  intros Hlen Hd.
  assert (Hno : forall bs j,
             Z.of_nat (Miner.n_zeroes (Miner.digest bs j))
             <> mp_difficulty mine_params).
  { intros bs j. pose proof (n_zeroes_le_length (Miner.digest bs j)) as Hle.
    unfold Miner.digest in Hle at 2. rewrite Hlen in Hle. lia. }
  intros fuel block_str n h x pool. split.
  - apply search_without_match. apply Hno.
  - unfold Miner.mine.
    destruct (Miner.distribute _ _ _ _ _) as [p| |]; simpl; try discriminate.
    rewrite search_without_match by apply Hno. discriminate.
Qed.

Lemma dict_set_existing {V : Type} (k : string) (v old : V) (d : dict V) :
  dict_get k d = Some old ->
  length (dict_set k v d) = length d /\
  dict_keys (dict_set k v d) = dict_keys d.
Proof.
  induction d as [|[k' v'] r IH]; simpl; [discriminate|].
  destruct (String.eqb_spec k' k) as [->|Hne]; intros H.
  - split; reflexivity.
  - destruct (IH H) as [Hl Hk]. simpl. now rewrite Hl, Hk.
Qed.

(** X15.  [reward_tx] writes at key [str(len(TXPOOL))].  On a pool that
    already has this key (its keys are not "0", ..., [str(len - 1)]) it
    does not append: the pool keeps its size and its keys, and the
    transaction that was stored under that key is replaced by the
    reward.  On a pool keyed in order the key is new and the reward is
    appended. *)
Theorem reward_tx_replaces_existing_key (recvr : string) (reward : float)
    (pool : dict Transaction) (sendr : option string)
    (now : string) (old : Transaction) :
  dict_get (str_nat (length pool)) pool = Some old ->
  let pool' := Miner.reward_tx recvr reward pool sendr now in
  length pool' = length pool /\
  dict_keys pool' = dict_keys pool /\
  ~ keyed_in_order pool /\
  exists tx,
    dict_get (str_nat (length pool)) pool' = Some tx /\
    sendr_addr tx = opt_or sendr "IceCereum-Rewards" /\
    recvr_addr tx = recvr /\
    value tx = reward /\
    mining_fee tx = 0%float /\
    final_value tx = reward.
Proof.
  intros Hold pool'. unfold pool', Miner.reward_tx.
  match goal with
  | |- context [dict_set ?k ?v pool] => set (tx := v)
  end.
  destruct (dict_set_existing (str_nat (length pool)) tx old pool Hold)
    as [Hl Hk].
  split; [exact Hl|]. split; [exact Hk|]. split.
  - intros Hkeyed.
    assert (Hnone : dict_get (str_nat (length pool)) pool = None).
    { apply dict_get_None_notin. rewrite Hkeyed. now apply key_range_fresh. }
    congruence.
  - exists tx. split; [apply dict_get_set_same|]. repeat split.
Qed.

(** X16.  When k < 1 on a non-empty snapshot keyed in order, the reward
    step of [mine] always returns, whatever the random draws and
    without any fuel: the snapshot followed by at most one reward and
    by the payment of the miner. *)
Theorem reward_step_returns_below_one (mine_params : MetaParams)
    (miner_addr : string) (rnd : Random) (clock : nat -> string) (fuel : nat) :
  let pool := mp_TXPOOL mine_params in
  let N := length pool in
  let k := (mp_percent_tx_rewarded mine_params * float_of_int (Z.of_nat N))%float in
  keyed_in_order pool ->
  N <> 0 ->
  (k <? 1)%float = true ->
  exists pool',
    Miner.distribute mine_params miner_addr rnd clock fuel = Returns pool' /\
    (length pool' = N + 1 \/ length pool' = N + 2).
Proof.
  intros pool N k Hk HN Hlt.
  destruct (distribute_returns mine_params miner_addr rnd clock fuel Hk HN)
    as [pool' Hd].
  { intros Hge. unfold k, N, pool in Hlt. rewrite Hlt in Hge. discriminate Hge. }
  exists pool'. split; [exact Hd|].
  destruct (distribute_augments mine_params miner_addr rnd clock fuel pool' Hk Hd)
    as (picked & Haug & _ & _ & Hle & _).
  destruct Haug as (rewards & payment & Heq & _ & Hall & _).
  apply Forall2_length in Hall. unfold dict_values in Hall.
  rewrite length_map in Hall.
  specialize (Hle Hlt).
  rewrite Heq, !length_app. simpl. unfold N, pool. lia.
Qed.

End MinerEdges.

Section SamplingReturns.
Context {E : Extern}.

Lemma seen_S (rnd : Random) (n j : nat) :
  seen rnd n (S j) = note_draw (seen rnd n j) (randint_raw rnd j mod n).
Proof.
  unfold seen. rewrite first_draws_S, fold_left_app. reflexivity.
Qed.

Lemma note_draw_extends (acc : list nat) (x : nat) :
  exists rest, note_draw acc x = acc ++ rest.
Proof.
  unfold note_draw. destruct (existsb _ acc).
  - exists []. now rewrite app_nil_r.
  - now exists [x].
Qed.

Lemma seen_extends (rnd : Random) (n i d : nat) :
  exists rest, seen rnd n (i + d) = seen rnd n i ++ rest.
Proof.
  induction d as [|d [rest IH]].
  - exists []. now rewrite Nat.add_0_r, app_nil_r.
  - replace (i + S d) with (S (i + d)) by lia. rewrite seen_S, IH.
    destruct (note_draw_extends (seen rnd n i ++ rest)
                (randint_raw rnd (i + d) mod n)) as [rest' ->].
    exists (rest ++ rest'). now rewrite app_assoc.
Qed.

(** The sampling loop goes through the draws and stops at the first
    moment [m + 1] different positions have been seen. *)
Lemma sample_loop_reaches (rnd : Random) (n : nat) (m : Z) (j : nat) :
  n <> 0 ->
  Z.of_nat (length (seen rnd n j)) = (m + 1)%Z ->
  forall d i fuel,
    i + d = j -> d <= fuel ->
    Miner.sample_loop fuel rnd i n m (seen rnd n i) = Returns (seen rnd n j).
Proof.
  intros Hn Hlen. induction d as [|d IH]; intros i fuel Hij Hfuel.
  - rewrite Nat.add_0_r in Hij. subst i.
    assert (Hc : (Z.of_nat (length (seen rnd n j)) <=? m)%Z = false)
      by (apply Z.leb_gt; lia).
    destruct fuel; simpl; now rewrite Hc.
  - destruct (Z.of_nat (length (seen rnd n i)) <=? m)%Z eqn:Hc.
    + destruct fuel as [|fuel]; [lia|]. simpl. rewrite Hc.
      unfold Miner.randint_below.
      destruct (n =? 0)%nat eqn:Hn0; [apply Nat.eqb_eq in Hn0; contradiction|].
      fold (note_draw (seen rnd n i) (randint_raw rnd i mod n)).
      rewrite <- seen_S. apply IH; lia.
    + apply Z.leb_gt in Hc.
      destruct (seen_extends rnd n i (S d)) as [rest Hrest].
      rewrite Hij in Hrest.
      assert (Hnil : rest = []).
      { apply (f_equal (@length nat)) in Hrest. rewrite length_app in Hrest.
        destruct rest; [reflexivity|]. simpl in Hrest. lia. }
      subst rest. rewrite app_nil_r in Hrest. rewrite Hrest.
      assert (Hc' : (Z.of_nat (length (seen rnd n i)) <=? m)%Z = false)
        by (apply Z.leb_gt; lia).
      destruct fuel; simpl; now rewrite Hc'.
Qed.

(** X17.  When k >= 1 on a non-empty snapshot keyed in order, the reward
    step of [mine] returns as soon as the draws have shown
    [int(k) + 1] different positions (repeated draws are passed over):
    if that is the case after [j] draws and the loop may run that long,
    the returned pool is the snapshot, then one reward for each of these
    positions in the order in which they first came, then the payment
    of the miner. *)
Theorem reward_step_returns_when_enough_draws (mine_params : MetaParams)
    (miner_addr : string) (rnd : Random) (clock : nat -> string)
    (fuel j : nat) (m : Z) :
  let pool := mp_TXPOOL mine_params in
  let N := length pool in
  let k := (mp_percent_tx_rewarded mine_params * float_of_int (Z.of_nat N))%float in
  keyed_in_order pool ->
  N <> 0 ->
  (k <? 1)%float = false ->
  int_of_float k = Returns m ->
  Z.of_nat (length (seen rnd N j)) = (m + 1)%Z ->
  j <= fuel ->
  exists pool',
    Miner.distribute mine_params miner_addr rnd clock fuel = Returns pool' /\
    augmented_by pool pool' (seen rnd N j) (mp_reward_for_tx mine_params)
      miner_addr (float_of_int (Z.of_nat N) * mp_mining_fees mine_params)%float /\
    Z.of_nat (length pool') = (Z.of_nat N + m + 2)%Z.
Proof.
  intros pool N k Hk HN Hge Hint Hseen Hfuel.
  assert (Hs : Miner.sample_loop fuel rnd 0 N m [] = Returns (seen rnd N j)).
  { exact (sample_loop_reaches rnd N m j HN Hseen j 0 fuel eq_refl Hfuel). }
  assert (Hrange : Forall (fun x => x < N) (seen rnd N j)).
  { destruct (sample_loop_spec rnd N m fuel 0 [] _ Hs) as (_ & H & _);
      [constructor|constructor|simpl; lia|exact H]. }
  destruct (pay_rewards_spec pool (mp_reward_for_tx mine_params) clock
              (seen rnd N j) 0 [] Hrange) as (rewards & Hpr & Hkr & Hall).
  { now rewrite app_nil_r. }
  rewrite app_nil_r in Hpr. simpl in Hpr, Hkr.
  destruct (reward_tx_appends miner_addr
              (float_of_int (Z.of_nat N) * mp_mining_fees mine_params)%float
              (pool ++ rewards) (Some "IceCereum-MiningPayment")
              (clock (length (seen rnd N j))) Hkr)
    as (tx & Heq & Hsnd & Hrcv & Hv & Hf & Hfv).
  eexists. split; [|split].
  - unfold Miner.distribute. fold pool. fold N. fold k.
    rewrite Hge, Hint. simpl. rewrite Hs. simpl. rewrite Hpr. simpl.
    rewrite Heq. reflexivity.
  - exists rewards, (str_nat (length (pool ++ rewards)), tx).
    rewrite <- app_assoc. split; [reflexivity|]. split.
    + rewrite app_assoc. now apply keyed_in_order_snoc.
    + split; [exact Hall|]. repeat split; assumption.
  - apply Forall2_length in Hall. unfold dict_values in Hall.
    rewrite length_map in Hall.
    rewrite !length_app. simpl. unfold N, pool in *. lia.
Qed.

End SamplingReturns.

(* ===================================================================== *)
(** ** Further properties: genesis and the empty ledger *)
(* ===================================================================== *)

Section GenesisAndEmpty.
Context {E : Extern}.

(** X18.  Genesis creation always returns, with a chain of one block of
    index 0 and [previous_block_hash] 0, whose only transaction pays
    [amount] from "genesis" to the lower-cased address with fee 0.0; the
    pool is empty again and the fee is 1.  Afterwards the address holds
    [amount] and the account "genesis" exists with [amount] withdrawn
    (a negative balance), unless the address is "genesis" itself. *)
Theorem genesis_ledger (files : dict BlockDict) (address : string)
    (amount : float) (t_tx t_block : string) :
  exists s b tx,
    Chain.init_genesis files address amount t_tx t_block = Some s /\
    chain s = [b] /\
    index s = 1 /\
    block_index b = 0 /\
    previous_block_hash b = PrevInt 0 /\
    transactions b = [("0", tx)] /\
    sendr_addr tx = "genesis" /\
    recvr_addr tx = lower address /\
    value tx = amount /\
    mining_fee tx = 0%float /\
    final_value tx = (amount - 0)%float /\
    TXPOOL s = [] /\
    transaction_number s = 0 /\
    _mining_fees s = 1%float /\
    (lower address <> "genesis" ->
     Chain.get_balance_of_addr s address = (true, (0 + (amount - 0))%float) /\
     Chain.get_balance_of_addr s "Genesis" = (true, (0 - amount)%float)).
Proof.
  do 3 eexists. split; [reflexivity|].
  repeat (split; [reflexivity|]).
  intros Hne. rewrite !get_balance_of_addr_spec.
  set (tx := Chain.make_transaction "Genesis" address amount 0 t_tx None).
  change (history _) with [tx].
  change (lower "Genesis") with "genesis".
  unfold appears, net_received. cbn [existsb fold_left].
  unfold involves, net_step.
  change (sendr_addr tx) with "genesis".
  change (recvr_addr tx) with (lower address).
  change (value tx) with amount.
  change (final_value tx) with (amount - 0)%float.
  rewrite !String.eqb_refl.
  destruct (String.eqb_spec "genesis" (lower address)) as [Heq|_];
    [now symmetry in Heq|].
  destruct (String.eqb_spec (lower address) "genesis") as [Heq|_];
    [contradiction|].
  split; reflexivity.
Qed.

(** X19.  On a ledger without any block (a new [Cryptocurrency()], or
    the result of [load_chain] on an empty directory) reading the
    metaparameters raises, so that both branches of the transfer route
    and the route [mine_block] fail for every request and leave the
    ledger as it was; [create_block] itself does work there when the
    index is 0 (and [exp] does not overflow for the counter) and makes
    the block of index 0 with [previous_block_hash] 0. *)
Theorem routes_fail_without_block (s : Cryptocurrency) :
  chain s = [] ->
  Chain.get_latest_block_metaparams s = None /\
  (forall session request_body t,
      ChainAPI.add_transaction_POST s session request_body t
      = (InternalServerError, s)) /\
  (forall session a uuid,
      fst (ChainAPI.add_transaction_GET s session (Some a) uuid)
      = InternalServerError) /\
  (forall mining_resp t,
      ChainAPI.mine_block s mining_resp t = (InternalServerError, s)) /\
  (index s = 0 ->
   Chain.Mu (transaction_number s) <> None ->
   forall h n t, exists s' b,
     Chain.create_block s h n t = Some (s', b) /\
     chain s' = [b] /\ block_index b = 0 /\
     previous_block_hash b = PrevInt 0 /\
     transactions b = TXPOOL s).
Proof.
  intros Hc.
  assert (Hm : Chain.get_latest_block_metaparams s = None).
  { unfold Chain.get_latest_block_metaparams, Chain.last_block. now rewrite Hc. }
  split; [exact Hm|]. split; [|split; [|split]].
  - intros session rq t. unfold ChainAPI.add_transaction_POST,
      ChainAPI.current_mining_fees. now rewrite Hm.
  - intros session a uuid. unfold ChainAPI.add_transaction_GET,
      ChainAPI.current_mining_fees. now rewrite Hm.
  - intros r t. unfold ChainAPI.mine_block. now rewrite Hm.
  - intros H0 Hmu h n t. rewrite create_block_unfold. rewrite H0. simpl.
    destruct (Chain.Mu (transaction_number s)) as [mu|]; [|now elim Hmu].
    do 2 eexists. split; [reflexivity|]. simpl. rewrite Hc.
    repeat split.
Qed.

End GenesisAndEmpty.

(* ===================================================================== *)
(** ** Further properties: a seal whose [set_metaparams] overflows *)
(* ===================================================================== *)

Section SealOverflow.
Context {E : Extern}.

(** X20.  When [exp] overflows for the counter of a ledger built from
    genesis, [create_block] raises after it has written the block file:
    the file [str(index) + ".json"] holds the pool, while the index,
    the chain, the pool, the counter and the fee are as before (no
    block is added, the pool is not reset).  Through the route
    [mine_block] the answer is "ERROR CREATING BLOCK", and the pool is
    then the one the mining node answered, the counter still the old
    one. *)
Theorem seal_overflow_writes_file_only (cs : list Call) (s : Cryptocurrency)
    (mined_block_hash nonce time_utc : string)
    (mining_resp : MetaParams -> MiningResp) :
  built_from_genesis cs s ->
  Chain.Mu (transaction_number s) = None ->
  let s1 := Chain.create_block_raised s mined_block_hash nonce time_utc in
  Chain.create_block s mined_block_hash nonce time_utc = None /\
  (exists block_dict,
     dict_get (file_name (index s)) (blocks_path s1) = Some block_dict /\
     bd_block_index block_dict = index s /\
     bd_transactions block_dict = TXPOOL s) /\
  index s1 = index s /\
  chain s1 = chain s /\
  TXPOOL s1 = TXPOOL s /\
  transaction_number s1 = transaction_number s /\
  _mining_fees s1 = _mining_fees s /\
  exists POST_data s2,
    Chain.get_latest_block_metaparams s = Some POST_data /\
    ChainAPI.mine_block s mining_resp time_utc = (ErrorCreatingBlock, s2) /\
    chain s2 = chain s /\
    TXPOOL s2 = resp_transactions (mining_resp POST_data) /\
    transaction_number s2 = transaction_number s.
Proof.
  intros Hb Hmu s1. pose proof (built_chain_inv cs s Hb) as Hc.
  destruct (create_block_overflow s mined_block_hash nonce time_utc Hc Hmu)
    as (Hnone & d & Hs1 & Hd1 & Hd2).
  split; [exact Hnone|]. unfold s1. rewrite Hs1. split.
  { exists d. split; [|split; assumption].
    unfold Chain.write_file, file_name. cbn [blocks_path].
    apply dict_get_set_same. }
  repeat (split; [reflexivity|]).
  destruct (last_block_nonempty s (built_chain_nonempty cs s Hb)) as [bl Hbl].
  unfold ChainAPI.mine_block, ChainAPI.create_block,
    Chain.get_latest_block_metaparams.
  rewrite Hbl. eexists. eexists. split; [reflexivity|].
  match goal with
  | |- context [Chain.create_block ?s0 ?h ?n ?t] =>
      destruct (create_block_overflow s0 h n t Hc Hmu)
        as (Hnone' & d' & Hs2 & _); rewrite Hnone'
  end.
  split; [reflexivity|]. rewrite Hs2. repeat split.
Qed.

End SealOverflow.

(* ===================================================================== *)
(** ** The further properties on examples *)
(* ===================================================================== *)

Lemma demo_ten_built : built_by_returning_seals (E := demo_extern) demo_admissions demo_ten.
Proof.
  exists [], "0xab", 1000%float, "t0", "t1", demo_genesis.
  split; [reflexivity|]. split; [vm_compute; reflexivity|reflexivity].
Qed.

Lemma demo_ten_keyed : keyed_in_order (TXPOOL demo_ten).
Proof. reflexivity. Qed.

Lemma pool_counted_and_keyed_witness :
  built_by_returning_seals (E := demo_extern) demo_admissions demo_ten /\
  transaction_number demo_ten = length (TXPOOL demo_ten).
Proof.
  split; [exact demo_ten_built|].
  exact (proj1 (pool_counted_and_keyed (E := demo_extern) demo_admissions
                  demo_ten demo_ten_built)).
Defined.


Lemma sealing_keeps_balances_witness :
  exists s' b,
    Chain.create_block (E := demo_extern) demo_ten "00ab" "2" "t11" = Some (s', b) /\
    Chain.get_balance_of_addr s' "0xab" = Chain.get_balance_of_addr demo_ten "0xab".
Proof.
  destruct (Chain.create_block (E := demo_extern) demo_ten "00ab" "2" "t11")
    as [[s' b]|] eqn:Hcb.
  - exists s', b. split; [reflexivity|].
    exact (proj1 (sealing_keeps_balances (E := demo_extern) demo_ten s' b
                    "00ab" "2" "t11" Hcb "0xab")).
  - vm_compute in Hcb. discriminate Hcb.
Defined.

Lemma queries_agree_on_lower_case_witness :
  lower "0xab" = "0xab" /\
  fst (Chain.get_transactions_of_addr demo_ten "0xab")
  = fst (Chain.get_balance_of_addr demo_ten "0xab").
Proof.
  split; [reflexivity|].
  exact (queries_agree_on_lower_case demo_ten "0xab" eq_refl).
Defined.

Lemma demo_mined_built_in_empty_directory :
  built_in_empty_directory (E := demo_extern)
    [CallMineBlock (demo_mining_resp (mkRandom 0.5 (fun _ => 0)) 8) "t2"]
    demo_mined.
Proof.
  exists "0xab", 1000%float, "t0", "t1", demo_genesis.
  split; [reflexivity|]. split; [vm_compute; reflexivity|reflexivity].
Qed.

Lemma load_chain_round_trip_witness :
  Forall (fun b => block_timestamp b <> "") (chain demo_mined) /\
  chain (ChainAPI.load_chain (blocks_path demo_mined)
           (dict_values (blocks_path demo_mined)) "t3")
  = chain demo_mined.
Proof.
  assert (Hts : Forall (fun b => block_timestamp b <> "") (chain demo_mined))
    by (repeat constructor; discriminate).
  split; [exact Hts|].
  exact (proj1 (proj2 (load_chain_round_trip (E := demo_extern) _ demo_mined "t3"
                         demo_mined_built_in_empty_directory Hts))).
Defined.


Lemma demo_ten_fee :
  Chain.Mu (E := demo_extern) (transaction_number demo_ten) <> None.
Proof. vm_compute. discriminate. Qed.

Lemma metaparams_describe_sealed_block_witness :
  Chain.Mu (E := demo_extern) (transaction_number demo_ten) <> None /\
  exists m s' b,
    Chain.get_latest_block_metaparams (E := demo_extern) demo_ten = Some m /\
    Chain.create_block (E := demo_extern) demo_ten "00ab" "2" "t11" = Some (s', b) /\
    block_index b = mp_index m /\
    previous_block_hash b = PrevStr (mp_prev_hash m).
Proof.
  split; [exact demo_ten_fee|].
  destruct (metaparams_describe_sealed_block (E := demo_extern) demo_admissions
              demo_ten "00ab" "2" "t11" demo_ten_built demo_ten_fee)
    as (m & s' & b & file & H1 & H2 & H3 & H4 & _).
  exists m, s', b. repeat split; assumption.
Defined.


Lemma post_failure_changes_nothing_witness :
  exists answer Crypto',
    ChainAPI.add_transaction_POST (E := demo_extern) demo_genesis demo_session
      (mkRequestBody (Some "0xab") (Some "0xcd") (Some 5000%float) (Some "5f2c")
                     (Some "script") (Some "0xab")) "t5"
    = (answer, Crypto') /\
    answer = ErrorDesc 6 "" /\
    Crypto' = demo_genesis.
Proof.
  destruct (ChainAPI.add_transaction_POST (E := demo_extern) demo_genesis
              demo_session
              (mkRequestBody (Some "0xab") (Some "0xcd") (Some 5000%float)
                 (Some "5f2c") (Some "script") (Some "0xab")) "t5")
    as [answer Crypto'] eqn:Hpost.
  exists answer, Crypto'. split; [reflexivity|].
  assert (Ha : answer = ErrorDesc 6 "").
  { vm_compute in Hpost. now injection Hpost as <- _. }
  split; [exact Ha|].
  apply (proj1 (post_failure_changes_nothing (E := demo_extern) demo_genesis
                  Crypto' demo_session _ "t5" answer Hpost)).
  rewrite Ha. discriminate.
Defined.

Lemma mine_augments_snapshot_witness :
  keyed_in_order (TXPOOL demo_ten) /\
  exists h x pool' picked,
    Miner.mine (E := demo_extern) (demo_params (TXPOOL demo_ten) 0.1) "0xee"
      demo_repeating demo_clock 8 = Returns (h, x, pool') /\
    augmented_by (TXPOOL demo_ten) pool' picked 1.5 "0xee"
      (float_of_int 10 * 1)%float /\
    length pool' = 10 + length picked + 1 /\
    NoDup picked.
Proof.
  split; [exact demo_ten_keyed|].
  destruct (Miner.mine (E := demo_extern) (demo_params (TXPOOL demo_ten) 0.1)
              "0xee" demo_repeating demo_clock 8)
    as [[[h x] pool']| |] eqn:Hm;
    [|vm_compute in Hm; discriminate Hm|vm_compute in Hm; discriminate Hm].
  destruct (mine_augments_snapshot (E := demo_extern)
              (demo_params (TXPOOL demo_ten) 0.1) "0xee" demo_repeating
              demo_clock 8 h x pool' demo_ten_keyed Hm)
    as (picked & Haug & Hnd & _ & Hlen & _ & _).
  exists h, x, pool', picked. split; [reflexivity|]. split; [exact Haug|].
  split; [exact Hlen|exact Hnd].
Defined.

Lemma sampling_cannot_finish_witness :
  Miner.mine (E := demo_extern) (demo_params [("0", demo_tx)] 1) "0xee"
    demo_repeating demo_clock 50 = NoResult.
Proof.
  assert (H1 : length (mp_TXPOOL (demo_params [("0", demo_tx)] 1)) <> 0)
    by discriminate.
  assert (H2 : ((mp_percent_tx_rewarded (demo_params [("0", demo_tx)] 1)
                 * float_of_int (Z.of_nat (length (mp_TXPOOL (demo_params [("0", demo_tx)] 1)))))
                <? 1)%float = false) by (vm_compute; reflexivity).
  assert (H3 : int_of_float
                 (mp_percent_tx_rewarded (demo_params [("0", demo_tx)] 1)
                  * float_of_int (Z.of_nat (length (mp_TXPOOL (demo_params [("0", demo_tx)] 1)))))
               = Returns 1%Z) by (vm_compute; reflexivity).
  assert (H4 : (Z.of_nat (length (mp_TXPOOL (demo_params [("0", demo_tx)] 1))) <= 1)%Z)
    by (simpl; lia).
  exact (proj2 (proj2 (sampling_cannot_finish (E := demo_extern)
                         (demo_params [("0", demo_tx)] 1) "0xee"
                         demo_repeating demo_clock 1%Z H1 H2 H3 H4 50))).
Defined.

Lemma demo_digest_length (s : string) :
  String.length (sha3_256 (Extern := demo_extern) s) = 4.
Proof.
  simpl. unfold demo_sha3_256.
  destruct (last_char s) as [[[] [] [] [] [] [] [] []]|]; reflexivity.
Qed.

Lemma search_cannot_finish_witness :
  (forall s, String.length (sha3_256 (Extern := demo_extern) s) = 4) /\
  Miner.search (E := demo_extern) 100 "challenge" 5 0 = NoResult.
Proof.
  split; [exact demo_digest_length|].
  refine (proj1 (search_cannot_finish (E := demo_extern)
                   (mkMetaParams 1 [] "0abc" 5 1 0 1.5 0.1) "0xee"
                   demo_repeating demo_clock 4 demo_digest_length _
                   100 "challenge" 0%N "" "" [])).
  right. simpl. lia.
Defined.

Lemma reward_tx_replaces_existing_key_witness :
  dict_get (str_nat (length [("1", demo_tx)])) [("1", demo_tx)] = Some demo_tx /\
  length (Miner.reward_tx (E := demo_extern) "0xab" 1.5 [("1", demo_tx)] None "t1")
  = 1.
Proof.
  assert (H : dict_get (str_nat (length [("1", demo_tx)])) [("1", demo_tx)]
              = Some demo_tx) by reflexivity.
  split; [exact H|].
  exact (proj1 (reward_tx_replaces_existing_key (E := demo_extern) "0xab"
                  1.5%float [("1", demo_tx)] None "t1" demo_tx H)).
Defined.

Lemma reward_step_returns_below_one_witness :
  exists pool',
    Miner.distribute (E := demo_extern) (demo_params [("0", demo_tx)] 0.1)
      "0xee" demo_repeating demo_clock 0 = Returns pool' /\
    (length pool' = 2 \/ length pool' = 3).
Proof.
  assert (H1 : keyed_in_order (mp_TXPOOL (demo_params [("0", demo_tx)] 0.1)))
    by reflexivity.
  assert (H2 : length (mp_TXPOOL (demo_params [("0", demo_tx)] 0.1)) <> 0)
    by discriminate.
  assert (H3 : ((mp_percent_tx_rewarded (demo_params [("0", demo_tx)] 0.1)
                 * float_of_int (Z.of_nat (length (mp_TXPOOL (demo_params [("0", demo_tx)] 0.1)))))
                <? 1)%float = true) by (vm_compute; reflexivity).
  exact (reward_step_returns_below_one (E := demo_extern)
            (demo_params [("0", demo_tx)] 0.1) "0xee" demo_repeating
            demo_clock 0 H1 H2 H3).
Defined.

Lemma reward_step_returns_when_enough_draws_witness :
  seen demo_repeating 10 3 = [0; 1] /\
  exists pool',
    Miner.distribute (E := demo_extern) (demo_params (TXPOOL demo_ten) 0.1)
      "0xee" demo_repeating demo_clock 3 = Returns pool' /\
    Z.of_nat (length pool') = 13%Z.
Proof.
  split; [reflexivity|].
  assert (H1 : keyed_in_order (mp_TXPOOL (demo_params (TXPOOL demo_ten) 0.1)))
    by (vm_compute; reflexivity).
  assert (H2 : length (mp_TXPOOL (demo_params (TXPOOL demo_ten) 0.1)) <> 0)
    by (vm_compute; discriminate).
  assert (H3 : ((mp_percent_tx_rewarded (demo_params (TXPOOL demo_ten) 0.1)
                 * float_of_int (Z.of_nat (length (mp_TXPOOL (demo_params (TXPOOL demo_ten) 0.1)))))
                <? 1)%float = false) by (vm_compute; reflexivity).
  assert (H4 : int_of_float
                 (mp_percent_tx_rewarded (demo_params (TXPOOL demo_ten) 0.1)
                  * float_of_int (Z.of_nat (length (mp_TXPOOL (demo_params (TXPOOL demo_ten) 0.1)))))
               = Returns 1%Z) by (vm_compute; reflexivity).
  assert (H5 : Z.of_nat (length (seen demo_repeating
                  (length (mp_TXPOOL (demo_params (TXPOOL demo_ten) 0.1))) 3))
               = (1 + 1)%Z) by (vm_compute; reflexivity).
  destruct (reward_step_returns_when_enough_draws (E := demo_extern)
              (demo_params (TXPOOL demo_ten) 0.1) "0xee" demo_repeating
              demo_clock 3 3 1%Z H1 H2 H3 H4 H5 (le_n 3))
    as (pool' & Hd & _ & Hlen).
  exists pool'. split; [exact Hd|].
  rewrite Hlen. vm_compute. reflexivity.
Defined.

Lemma genesis_ledger_witness :
  lower "0xab" <> "genesis" /\
  exists s,
    Chain.init_genesis (E := demo_extern) [] "0xab" 1000 "t0" "t1" = Some s /\
    Chain.get_balance_of_addr s "0xab" = (true, (0 + (1000 - 0))%float) /\
    Chain.get_balance_of_addr s "Genesis" = (true, (0 - 1000)%float).
Proof.
  assert (Hne : lower "0xab" <> "genesis") by discriminate.
  split; [exact Hne|].
  destruct (genesis_ledger (E := demo_extern) [] "0xab" 1000%float "t0" "t1")
    as (s & b & tx & Hs & H).
  exists s. split; [exact Hs|].
  do 13 (destruct H as [_ H]).
  exact (H Hne).
Defined.

Lemma routes_fail_without_block_witness :
  chain (Chain.init []) = [] /\
  forall session request_body t,
    ChainAPI.add_transaction_POST (E := demo_extern) (Chain.init []) session
      request_body t
    = (InternalServerError, Chain.init []).
Proof.
  split; [reflexivity|].
  exact (proj1 (proj2 (routes_fail_without_block (E := demo_extern)
                         (Chain.init []) eq_refl))).
Defined.

Lemma demo_many_built :
  built_from_genesis (E := demo_extern)
    (repeat (CallAdd "0xab" "0xcd" 1 1 "t5" None) (71 * 100 + 8)) demo_many.
Proof.
  exists [], "0xab", 1000%float, "t0", "t1", demo_genesis. split; reflexivity.
Qed.

Lemma demo_many_fee :
  Chain.Mu (E := demo_extern) (transaction_number demo_many) = None.
Proof. vm_compute. reflexivity. Qed.

Lemma seal_overflow_writes_file_only_witness :
  Chain.Mu (E := demo_extern) (transaction_number demo_many) = None /\
  Chain.create_block (E := demo_extern) demo_many "00ab" "2" "t9" = None /\
  chain (Chain.create_block_raised (E := demo_extern) demo_many "00ab" "2" "t9")
  = chain demo_many.
Proof.
  split; [exact demo_many_fee|].
  destruct (seal_overflow_writes_file_only (E := demo_extern) _ demo_many
              "00ab" "2" "t9" (fun _ => mkMiningResp "" "" [])
              demo_many_built demo_many_fee)
    as (H1 & _ & _ & H2 & _).
  split; [exact H1|exact H2].
Defined.

